(** * The hybrid file-transfer protocol and the worker pools of the chat
      application, embedded from the JavaScript sources.

    - [Pool], [WorkerPool], [ThreadPool]: backend/src/lib/threading.js and
      backend/src/lib/thread-pool.js (the two classes have the same fields
      and the same [processQueue]).
    - [Worker]: the web-worker script built inside [initWorker] of
      fileTransfer.js.
    - [Net]: the parts of frontend/src/lib/networking.js that fileTransfer.js
      calls ([sendUdpMessage], [sendTcpMessage]).
    - [FT]: the [FileTransferManager] class of fileTransfer.js.
    - [Sys]: the manager and its worker side by side, exchanging messages.

    Effects are kept as logs in the state: the [emitEvent] calls, the
    messages handed to the network manager, the messages posted to and by
    the worker, and the pending timers of the event loop.

    JavaScript numbers that the code uses as counters, sizes and indices are
    modelled as [Z]; [Set] as [gset], [Map] as [gmap], arrays as lists. *)

From Stdlib Require Import ZArith List Lia.
From stdpp Require Import base gmap sets list strings pretty.

Local Open Scope Z_scope.

(* ===================================================================== *)
(** ** Worker pools (threading.js, thread-pool.js)                        *)
(* ===================================================================== *)

Module Pool.

Section WithTask.
(** A task is the object [{ taskScript, taskData, resolve, reject }]; the
    pool never inspects it, so it stays a parameter.  [Res] is what a
    worker posts or throws. *)
Context {Task Res : Type}.

(** How a task's promise was settled by a handler. *)
Inductive Settle :=
| Resolve (r : Res)
| Reject (e : Res)
| RejectExit (code : Z).

(** The fields of [WorkerPool]/[ThreadPool], with three ghost logs:
    [started] lists the tasks for which [new Worker] was called, in call
    order (worker [w] is the one created for [started !! w]);
    [settled] lists the calls to [task.resolve]/[task.reject];
    [terminated] lists the calls to [worker.terminate()]. *)
Record State := mkState {
  maxWorkers : Z;
  activeWorkers : Z;
  taskQueue : list Task;
  started : list Task;
  settled : list (nat * Settle);
  terminated : list nat
}.

(** [constructor(maxWorkers)] *)
Definition init (maxW : Z) : State :=
  mkState maxW 0 [] [] [] [].

(** [processQueue()]: nothing when the queue is empty or
    [activeWorkers >= maxWorkers]; otherwise [taskQueue.shift()],
    [activeWorkers++] and a new worker for the task. *)
Definition processQueue (p : State) : State :=
  match taskQueue p with
  | [] => p
  | task :: rest =>
      if activeWorkers p >=? maxWorkers p then p
      else mkState (maxWorkers p) (activeWorkers p + 1) rest
                   (started p ++ [task]) (settled p) (terminated p)
  end.

(** [runTask]/[executeTask]: [taskQueue.push(task); processQueue()]. *)
Definition submit (task : Task) (p : State) : State :=
  processQueue
    (mkState (maxWorkers p) (activeWorkers p) (taskQueue p ++ [task])
             (started p) (settled p) (terminated p)).

(** [worker.on('message', ...)]: resolve, [activeWorkers--],
    [worker.terminate()], [processQueue()]. *)
Definition on_message (w : nat) (r : Res) (p : State) : State :=
  processQueue
    (mkState (maxWorkers p) (activeWorkers p - 1) (taskQueue p)
             (started p) (settled p ++ [(w, Resolve r)])
             (terminated p ++ [w])).

(** [worker.on('error', ...)]: reject, [activeWorkers--],
    [worker.terminate()], [processQueue()]. *)
Definition on_error (w : nat) (e : Res) (p : State) : State :=
  processQueue
    (mkState (maxWorkers p) (activeWorkers p - 1) (taskQueue p)
             (started p) (settled p ++ [(w, Reject e)])
             (terminated p ++ [w])).

(** [worker.on('exit', ...)]: only when [code !== 0]: reject,
    [activeWorkers--], [processQueue()]. *)
Definition on_exit (w : nat) (code : Z) (p : State) : State :=
  if code =? 0 then p
  else processQueue
         (mkState (maxWorkers p) (activeWorkers p - 1) (taskQueue p)
                  (started p) (settled p ++ [(w, RejectExit code)])
                  (terminated p)).

(** What can happen to a pool: a submission, or one of the three events
    of a worker that was created.  The handlers are closures created in
    [processQueue], so an event of a worker that does not exist reaches
    no handler. *)
Inductive Event :=
| Submit (task : Task)
| Message (w : nat) (r : Res)
| Error (w : nat) (e : Res)
| Exit (w : nat) (code : Z).

Definition step (p : State) (ev : Event) : State :=
  match ev with
  | Submit task => submit task p
  | Message w r => if decide (w < length (started p))%nat then on_message w r p else p
  | Error w e => if decide (w < length (started p))%nat then on_error w e p else p
  | Exit w code => if decide (w < length (started p))%nat then on_exit w code p else p
  end.

Definition run (p : State) (evs : list Event) : State :=
  fold_left step evs p.

(** The tasks submitted by a sequence of events, in submission order. *)
Fixpoint submissions (evs : list Event) : list Task :=
  match evs with
  | [] => []
  | Submit t :: evs' => t :: submissions evs'
  | _ :: evs' => submissions evs'
  end.

End WithTask.

Arguments State : clear implicits.
Arguments Event : clear implicits.
Arguments Settle : clear implicits.

End Pool.

(** threading.js: [class WorkerPool], method names as in the source. *)
Module WorkerPool.
Definition runTask {Task Res} (task : Task) (p : Pool.State Task Res) :=
  Pool.submit task p.
Definition processQueue {Task Res} (p : Pool.State Task Res) :=
  Pool.processQueue p.
End WorkerPool.

(** thread-pool.js: [class ThreadPool]. *)
Module ThreadPool.
Definition executeTask {Task Res} (task : Task) (p : Pool.State Task Res) :=
  Pool.submit task p.
Definition processQueue {Task Res} (p : Pool.State Task Res) :=
  Pool.processQueue p.
(** [executeParallel(tasks)]: [tasks.map(task => executeTask(...))]. *)
Definition executeParallel {Task Res} (tasks : list Task)
    (p : Pool.State Task Res) : Pool.State Task Res :=
  fold_left (fun q t => executeTask t q) tasks p.
End ThreadPool.

(* ===================================================================== *)
(** ** Values shared by the worker script and the manager                 *)
(* ===================================================================== *)

(** [const CHUNK_SIZE = 65536], [MAX_RETRY_COUNT = 3],
    [RETRY_TIMEOUT = 3000]. *)
Definition CHUNK_SIZE : Z := 65536.
Definition MAX_RETRY_COUNT : Z := 3.
Definition RETRY_TIMEOUT : Z := 3000.

(** An [ArrayBuffer] or a [Blob]'s content. *)
Definition Bytes := list Byte.byte.

(** A browser [File]: [name], [type] and content; [size] is derived. *)
Record File := mkFile {
  file_name : string;
  file_type : string;
  file_content : Bytes
}.

Definition file_size (f : File) : Z := Z.of_nat (length (file_content f)).

(** [file.slice(start, end)] with [0 <= start]: the bytes from [start]
    (inclusive) to [end] (exclusive), both clamped to the content. *)
Definition file_slice (f : File) (start end_ : Z) : Bytes :=
  take (Z.to_nat (end_ - start)) (drop (Z.to_nat start) (file_content f)).

(** [Math.ceil(a / b)] for integers [0 <= a], [0 < b]: the quotient is
    rounded up when the division leaves a remainder. *)
Definition ceil_div (a b : Z) : Z :=
  if a mod b =? 0 then a / b else a / b + 1.

(** The metadata object literal built by [processFile].  A metadata object
    that arrives from the network can carry further properties; the only
    one the manager ever reads back from a record is [chunks], kept here
    as [md_chunks] ([None]: the object has no such property). *)
Record Metadata := mkMetadata {
  md_transferId : string;
  md_fileId : string;
  md_fileName : string;
  md_fileType : string;
  md_fileSize : Z;
  md_totalChunks : Z;
  md_timestamp : Z;
  md_chunks : option (list Bytes)
}.

(** The [metadata: { fileName, totalChunks }] literal of a chunk message. *)
Record ChunkMeta := mkChunkMeta {
  cm_fileName : string;
  cm_totalChunks : Z
}.

(** [Math.round(n / d * 100)] is floating point; the model keeps the two
    integers whose quotient is reported. *)
Record Progress := mkProgress { pr_num : Z; pr_den : Z }.

(** The [status] strings: the worker script assigns ['processing'],
    ['complete'], ['error'] and ['aborted'] to its own objects, the manager
    ['sending'], ['receiving'], ['complete'] and ['cancelled'] to its
    records. *)
Inductive Status :=
| processing | sending | receiving | complete | error | cancelled | aborted.

#[global] Instance Status_eq_dec : EqDecision Status.
Proof. solve_decision. Defined.

(** Messages posted by the worker script ([self.postMessage]). *)
Inductive WorkerMsg :=
| WSendMetadata (transferId : string) (metadata : Metadata) (receiverId : string)
| WSendChunk (transferId : string) (chunkIndex : Z) (chunk : Bytes)
             (isLast : bool) (receiverId : string)
| WProgressUpdate (transferId : string) (progress : Progress)
| WTransferComplete (transferId : string) (success : bool)
| WTransferError (transferId : string) (error : string)
| WChunkReceived (transferId : string) (chunkIndex totalChunks : Z)
                 (progress : Progress)
| WReceiveComplete (transferId : string) (metadata : ChunkMeta)
| WTransferAborted (transferId : string).

(** Messages posted to the worker ([transferWorker.postMessage]). *)
Inductive ToWorker :=
| ProcessFile (fileId : string) (file : File) (receiverId : string)
| ProcessChunk (transferId : string) (chunk : Bytes) (chunkIndex : Z)
               (metadata : ChunkMeta)
| AbortTransfer (transferId : string).

(* ===================================================================== *)
(** ** The worker script of [initWorker]                                  *)
(* ===================================================================== *)

Module Worker.

(** The object stored in [activeTransfers] by [processFile]. *)
Record WTransfer := mkWTransfer {
  fileId : string;
  fileName : string;
  fileType : string;
  fileSize : Z;
  receiverId : string;
  totalChunks : Z;
  sentChunks : Z;
  status : Status
}.

Definition set_status (s : Status) (t : WTransfer) : WTransfer :=
  mkWTransfer (fileId t) (fileName t) (fileType t) (fileSize t)
              (receiverId t) (totalChunks t) (sentChunks t) s.

Definition incr_sentChunks (t : WTransfer) : WTransfer :=
  mkWTransfer (fileId t) (fileName t) (fileType t) (fileSize t)
              (receiverId t) (totalChunks t) (sentChunks t + 1) (status t).

(** The closure state of one call of [readFileChunks]: the [file], the
    captured [transfer] object (a reference into [heap], because
    [abortTransfer] mutates the same object through [activeTransfers]) and
    the variable [chunkIndex].  [rd_pending] tells whether a
    [readAsArrayBuffer] is outstanding. *)
Record Reader := mkReader {
  rd_transferId : string;
  rd_file : File;
  rd_transfer : nat;
  rd_chunkIndex : Z;
  rd_pending : bool
}.

Record State := mkState {
  heap : list WTransfer;
  activeTransfers : gmap string nat;
  readers : list Reader;
  posted : list WorkerMsg
}.

Definition init : State := mkState [] ∅ [] [].

Definition post (m : WorkerMsg) (w : State) : State :=
  mkState (heap w) (activeTransfers w) (readers w) (posted w ++ [m]).

Definition update_heap (r : nat) (f : WTransfer → WTransfer) (w : State) : State :=
  mkState (alter f r (heap w)) (activeTransfers w) (readers w) (posted w).

Definition set_reader (k : nat) (rd : Reader) (w : State) : State :=
  mkState (heap w) (activeTransfers w) (<[k := rd]> (readers w)) (posted w).

(** The bytes that [readNextChunk] hands to the reader for [chunkIndex]:
    [start = chunkIndex * CHUNK_SIZE],
    [end = Math.min(start + CHUNK_SIZE, file.size)]. *)
Definition readNextChunk (file : File) (chunkIndex : Z) : Bytes :=
  let start := chunkIndex * CHUNK_SIZE in
  let end_ := Z.min (start + CHUNK_SIZE) (file_size file) in
  file_slice file start end_.

(** [readFileChunks(transferId, file)] up to the first [readNextChunk()]:
    nothing if the transfer is missing or aborted, else a reader with
    [chunkIndex = 0] and a read outstanding. *)
Definition readFileChunks (transferId : string) (file : File) (w : State) : State :=
  match activeTransfers w !! transferId with
  | None => w
  | Some r =>
      match heap w !! r with
      | None => w
      | Some transfer =>
          if decide (status transfer = aborted) then w
          else mkState (heap w) (activeTransfers w)
                       (readers w ++ [mkReader transferId file r 0 true])
                       (posted w)
      end
  end.

(** [processFile(fileId, file, receiverId)]; [now1] and [now2] are the two
    readings of [Date.now()]. *)
Definition processFile (fileId : string) (file : File) (receiverId : string)
    (now1 now2 : Z) (w : State) : State :=
  let transferId := fileId +:+ "-" +:+ pretty now1 in
  let totalChunks := ceil_div (file_size file) CHUNK_SIZE in
  let r := length (heap w) in
  let w1 := mkState
      (heap w ++ [mkWTransfer fileId (file_name file) (file_type file)
                              (file_size file) receiverId totalChunks 0
                              processing])
      (<[transferId := r]> (activeTransfers w)) (readers w) (posted w) in
  let w2 := post (WSendMetadata transferId
      (mkMetadata transferId fileId (file_name file) (file_type file)
                  (file_size file) totalChunks now2 None)
      receiverId) w1 in
  readFileChunks transferId file w2.

(** [fileReader.onload] of reader [k]. *)
Definition onload (k : nat) (w : State) : State :=
  match readers w !! k with
  | None => w
  | Some rd =>
      if negb (rd_pending rd) then w else
      match heap w !! rd_transfer rd with
      | None => w
      | Some transfer =>
          let idle := mkReader (rd_transferId rd) (rd_file rd) (rd_transfer rd)
                               (rd_chunkIndex rd) false in
          if decide (status transfer = aborted) then set_reader k idle w
          else
            let chunkIndex := rd_chunkIndex rd in
            let w1 := post (WSendChunk (rd_transferId rd) chunkIndex
                              (readNextChunk (rd_file rd) chunkIndex)
                              (chunkIndex =? totalChunks transfer - 1)
                              (receiverId transfer)) w in
            let w2 := update_heap (rd_transfer rd) incr_sentChunks w1 in
            let w3 := post (WProgressUpdate (rd_transferId rd)
                              (mkProgress (sentChunks transfer + 1)
                                          (totalChunks transfer))) w2 in
            let chunkIndex' := chunkIndex + 1 in
            if chunkIndex' <? totalChunks transfer then
              set_reader k (mkReader (rd_transferId rd) (rd_file rd)
                                     (rd_transfer rd) chunkIndex' true) w3
            else
              let w4 := update_heap (rd_transfer rd) (set_status complete) w3 in
              let w5 := post (WTransferComplete (rd_transferId rd) true) w4 in
              set_reader k (mkReader (rd_transferId rd) (rd_file rd)
                                     (rd_transfer rd) chunkIndex' false) w5
      end
  end.

(** [fileReader.onerror] of reader [k]. *)
Definition onerror (k : nat) (w : State) : State :=
  match readers w !! k with
  | None => w
  | Some rd =>
      if negb (rd_pending rd) then w else
      let w1 := update_heap (rd_transfer rd) (set_status error) w in
      let w2 := post (WTransferError (rd_transferId rd) "Error reading file") w1 in
      set_reader k (mkReader (rd_transferId rd) (rd_file rd) (rd_transfer rd)
                             (rd_chunkIndex rd) false) w2
  end.

(** [processChunk(transferId, chunk, chunkIndex, metadata)]. *)
Definition processChunk (transferId : string) (chunk : Bytes) (chunkIndex : Z)
    (metadata : ChunkMeta) (w : State) : State :=
  let w1 := post (WChunkReceived transferId chunkIndex (cm_totalChunks metadata)
                    (mkProgress (chunkIndex + 1) (cm_totalChunks metadata))) w in
  if chunkIndex =? cm_totalChunks metadata - 1
  then post (WReceiveComplete transferId metadata) w1
  else w1.

(** [abortTransfer(transferId)]. *)
Definition abortTransfer (transferId : string) (w : State) : State :=
  match activeTransfers w !! transferId with
  | None => w
  | Some r =>
      let w1 := update_heap r (set_status aborted) w in
      let w2 := mkState (heap w1) (delete transferId (activeTransfers w1))
                        (readers w1) (posted w1) in
      post (WTransferAborted transferId) w2
  end.

(** [self.onmessage]; the clock readings are only used by [process-file]. *)
Definition onmessage (m : ToWorker) (now1 now2 : Z) (w : State) : State :=
  match m with
  | ProcessFile fileId file receiverId =>
      processFile fileId file receiverId now1 now2 w
  | ProcessChunk transferId chunk chunkIndex metadata =>
      processChunk transferId chunk chunkIndex metadata w
  | AbortTransfer transferId => abortTransfer transferId w
  end.

(** Reader [k] runs until it has no read outstanding; every [onload]
    consumes one unit of [fuel]. *)
Fixpoint drain (fuel : nat) (k : nat) (w : State) : State :=
  match fuel with
  | O => w
  | S fuel' =>
      match readers w !! k with
      | Some rd => if rd_pending rd then drain fuel' k (onload k w) else w
      | None => w
      end
  end.

End Worker.

(* ===================================================================== *)
(** ** networking.js: what the manager calls                               *)
(* ===================================================================== *)

(** The message object literals that fileTransfer.js passes to
    [sendTcpMessage]/[sendUdpMessage].  The chunk of a resend is read from
    an array and can be [undefined] ([None]). *)
Inductive NetMessage :=
| MsgFileMetadata (metadata : Metadata) (transferId receiverId : string)
| MsgFileChunk (transferId : string) (chunkIndex : Z) (chunk : option Bytes)
               (isLast : bool) (metadata : ChunkMeta) (receiverId : string)
| MsgFileMetadataAck (transferId status : string) (receiverId : string)
| MsgFileChunkAck (transferId : string) (chunkIndex : Z) (status : string)
                  (receiverId : string)
| MsgFileTransferCancel (transferId : string) (receiverId : option string).

Inductive Channel := UDP | TCP.

#[global] Instance Channel_eq_dec : EqDecision Channel.
Proof. solve_decision. Defined.

Module Net.

(** [NetworkManager]: the [connected] flag and, as a ghost log, the
    messages handed to the socket ([TCP]) or to the network worker
    ([UDP]), in call order. *)
Record State := mkState {
  connected : bool;
  sent : list (Channel * NetMessage)
}.

(** [sendUdpMessage(message)]: [false] and no send when not connected. *)
Definition sendUdpMessage (m : NetMessage) (n : State) : State * bool :=
  if connected n then (mkState (connected n) (sent n ++ [(UDP, m)]), true)
  else (n, false).

(** [sendTcpMessage(message)]: [false] and no send when not connected. *)
Definition sendTcpMessage (m : NetMessage) (n : State) : State * bool :=
  if connected n then (mkState (connected n) (sent n ++ [(TCP, m)]), true)
  else (n, false).

End Net.

(* ===================================================================== *)
(** ** fileTransfer.js: [class FileTransferManager]                       *)
(* ===================================================================== *)

(** The payloads of [emitEvent]; the constructor is the event name. *)
Inductive Event :=
| EvProgress (transferId : string) (progress : Progress)
| EvComplete (transferId : string) (success : bool)
| EvError (transferId : string) (error : string)
| EvReceiveProgress (transferId : string) (progress : Progress)
| EvAborted (transferId : string)
| EvIncomingFile (transferId fileName : string) (fileSize : Z)
                 (fileType : string) (senderId : string)
| EvFileReceived (transferId fileName : string) (fileType : option string)
                 (fileSize : option Z)
| EvCancelled (transferId : string).

(** The messages [handleNetworkMessage] dispatches on. *)
Inductive InMessage :=
| InFileMetadata (metadata : Metadata) (senderId : string)
| InFileChunk (transferId : string) (chunkIndex : Z) (chunk : Bytes)
              (metadata : ChunkMeta)
| InFileChunkAck (transferId : string) (chunkIndex : Z) (status : string)
| InFileTransferCancel (transferId : string)
| InOther.

(** An uncaught JavaScript exception. *)
Inductive JsError := TypeError.

Module FT.

(** A value of [transfer.retries]: [{ count, timeout }]; [timeout] is the
    handle returned by [setTimeout]. *)
Record RetryInfo := mkRetryInfo {
  count : Z;
  timeout : nat
}.

(** The properties a record gets besides the spread metadata and
    [status]: those of [sendFileMetadata] or those of
    [handleIncomingFileMetadata].  A property of the other kind reads as
    [undefined]; calling a method on it throws a [TypeError]. *)
Inductive Fields :=
| SenderFields (receiverId : string) (sentChunks acknowledgedChunks : gset Z)
               (retries : gmap Z RetryInfo)
| ReceiverFields (senderId : string) (receivedChunks : gmap Z Bytes)
                 (missingChunks : gset Z).

(** A value of [this.transfers]: [{ ...metadata, status, ... }]. *)
Record Transfer := mkTransfer {
  meta : Metadata;
  status : Status;
  fields : Fields
}.

(** [transfer.chunks]: only a property of the spread metadata can provide
    it, no code assigns it. *)
Definition chunks (t : Transfer) : option (list Bytes) := md_chunks (meta t).
Definition totalChunks (t : Transfer) : Z := md_totalChunks (meta t).

(** What a pending [setTimeout] will call. *)
Inductive TimerCb :=
| RetryCb (transferId : string) (chunkIndex : Z) (receiverId : string)
| DeleteCb (transferId : string).

(** The manager with what it reaches: its [transfers] map, whether
    [transferWorker] is set, the [networkManager] singleton, the pending
    timers of the event loop and the next handle [setTimeout] returns
    (handles are positive), and two ghost logs: the [emitEvent] calls and
    the messages posted to the worker, in call order. *)
Record State := mkState {
  transfers : gmap string Transfer;
  initialized : bool;
  transferWorker : bool;
  net : Net.State;
  timers : gmap nat TimerCb;
  nextTimer : nat;
  emitted : list Event;
  toWorker : list ToWorker
}.

(** [new FileTransferManager()] next to a [networkManager] and a timer
    counter. *)
Definition init (n : Net.State) : State :=
  mkState ∅ false false n ∅ 1%nat [] [].

Definition set_transfers (f : gmap string Transfer → gmap string Transfer)
    (st : State) : State :=
  mkState (f (transfers st)) (initialized st) (transferWorker st) (net st)
          (timers st) (nextTimer st) (emitted st) (toWorker st).

Definition set_net (n : Net.State) (st : State) : State :=
  mkState (transfers st) (initialized st) (transferWorker st) n
          (timers st) (nextTimer st) (emitted st) (toWorker st).

(** [emitEvent(event, data)] *)
Definition emitEvent (e : Event) (st : State) : State :=
  mkState (transfers st) (initialized st) (transferWorker st) (net st)
          (timers st) (nextTimer st) (emitted st ++ [e]) (toWorker st).

(** [this.transferWorker.postMessage(m)] *)
Definition postToWorker (m : ToWorker) (st : State) : State :=
  mkState (transfers st) (initialized st) (transferWorker st) (net st)
          (timers st) (nextTimer st) (emitted st) (toWorker st ++ [m]).

(** [setTimeout(cb, delay)]: the new handle and the state with the timer
    pending. *)
Definition setTimeout (cb : TimerCb) (st : State) : nat * State :=
  (nextTimer st,
   mkState (transfers st) (initialized st) (transferWorker st) (net st)
           (<[nextTimer st := cb]> (timers st)) (S (nextTimer st))
           (emitted st) (toWorker st)).

(** [clearTimeout(handle)] *)
Definition clearTimeout (h : nat) (st : State) : State :=
  mkState (transfers st) (initialized st) (transferWorker st) (net st)
          (delete h (timers st)) (nextTimer st) (emitted st) (toWorker st).

Definition sendTcpMessage (m : NetMessage) (st : State) : State :=
  set_net (Net.sendTcpMessage m (net st)).1 st.

Definition sendUdpMessage (m : NetMessage) (st : State) : State :=
  set_net (Net.sendUdpMessage m (net st)).1 st.

(** A handler's result: the state it leaves and the exception it threw,
    if any. *)
Definition Outcome : Type := State * option JsError.
Definition ok (st : State) : Outcome := (st, None).
Definition throw (e : JsError) (st : State) : Outcome := (st, Some e).

Definition set_status (s : Status) (t : Transfer) : Transfer :=
  mkTransfer (meta t) s (fields t).

(** [array[i]] for a number [i]: [undefined] out of range. *)
Definition array_get {A} (l : list A) (i : Z) : option A :=
  if i <? 0 then None else l !! Z.to_nat i.

(** [sendFileMetadata(transferId, metadata, receiverId)] *)
Definition sendFileMetadata (transferId : string) (metadata : Metadata)
    (receiverId : string) (st : State) : Outcome :=
  let st1 := sendTcpMessage (MsgFileMetadata metadata transferId receiverId) st in
  ok (set_transfers
        (insert transferId
           (mkTransfer metadata sending (SenderFields receiverId ∅ ∅ ∅)))
        st1).

(** [sendFileChunk(transferId, chunkIndex, chunk, isLast, receiverId)] *)
Definition sendFileChunk (transferId : string) (chunkIndex : Z) (chunk : Bytes)
    (isLast : bool) (receiverId : string) (st : State) : Outcome :=
  match transfers st !! transferId with
  | None => ok st
  | Some transfer =>
      if decide (status transfer ≠ sending) then ok st else
      match fields transfer with
      | ReceiverFields _ _ _ => throw TypeError st
      | SenderFields rid sentChunks acknowledgedChunks retries =>
          let sentChunks' := {[chunkIndex]} ∪ sentChunks in
          let st1 := set_transfers
              (insert transferId
                 (mkTransfer (meta transfer) (status transfer)
                    (SenderFields rid sentChunks' acknowledgedChunks retries)))
              st in
          let st2 := sendUdpMessage
              (MsgFileChunk transferId chunkIndex (Some chunk) isLast
                 (mkChunkMeta (md_fileName (meta transfer)) (totalChunks transfer))
                 receiverId) st1 in
          let '(retryTimeout, st3) :=
            setTimeout (RetryCb transferId chunkIndex receiverId) st2 in
          ok (set_transfers
                (insert transferId
                   (mkTransfer (meta transfer) (status transfer)
                      (SenderFields rid sentChunks' acknowledgedChunks
                         (<[chunkIndex := mkRetryInfo 0 retryTimeout]> retries))))
                st3)
      end
  end.

(** [retryChunk(transferId, chunkIndex, receiverId)].  [retryInfo.count++]
    is done first; in either branch the message literal is evaluated
    before the send, and reading [transfer.chunks[chunkIndex]] throws when
    [transfer.chunks] is [undefined]. *)
Definition retryChunk (transferId : string) (chunkIndex : Z)
    (receiverId : string) (st : State) : Outcome :=
  match transfers st !! transferId with
  | None => ok st
  | Some transfer =>
      if decide (status transfer ≠ sending) then ok st else
      match fields transfer with
      | ReceiverFields _ _ _ => throw TypeError st
      | SenderFields rid sentChunks acknowledgedChunks retries =>
          match retries !! chunkIndex with
          | None => ok st
          | Some retryInfo =>
              if decide (chunkIndex ∈ acknowledgedChunks) then ok st else
              let count' := count retryInfo + 1 in
              let record (ri : RetryInfo) :=
                mkTransfer (meta transfer) (status transfer)
                  (SenderFields rid sentChunks acknowledgedChunks
                     (<[chunkIndex := ri]> retries)) in
              let st1 := set_transfers
                  (insert transferId
                     (record (mkRetryInfo count' (timeout retryInfo)))) st in
              let message (cs : list Bytes) :=
                MsgFileChunk transferId chunkIndex (array_get cs chunkIndex)
                  (chunkIndex =? totalChunks transfer - 1)
                  (mkChunkMeta (md_fileName (meta transfer))
                               (totalChunks transfer))
                  receiverId in
              if count' >? MAX_RETRY_COUNT then
                match chunks transfer with
                | None => throw TypeError st1
                | Some cs => ok (sendTcpMessage (message cs) st1)
                end
              else
                match chunks transfer with
                | None => throw TypeError st1
                | Some cs =>
                    let st2 := sendUdpMessage (message cs) st1 in
                    let '(h, st3) :=
                      setTimeout (RetryCb transferId chunkIndex receiverId) st2 in
                    ok (set_transfers
                          (insert transferId (record (mkRetryInfo count' h)))
                          st3)
                end
          end
      end
  end.

(** [handleIncomingFileMetadata(metadata, senderId)] *)
Definition handleIncomingFileMetadata (metadata : Metadata) (senderId : string)
    (st : State) : Outcome :=
  let transferId := md_transferId metadata in
  let st1 := set_transfers
      (insert transferId
         (mkTransfer metadata receiving (ReceiverFields senderId ∅ ∅))) st in
  let st2 := emitEvent
      (EvIncomingFile transferId (md_fileName metadata) (md_fileSize metadata)
         (md_fileType metadata) senderId) st1 in
  ok (sendTcpMessage (MsgFileMetadataAck transferId "ready" senderId) st2).

(** [assembleFile(transferId)] *)
Definition assembleFile (transferId : string) (st : State) : Outcome :=
  match transfers st !! transferId with
  | None => ok st
  | Some transfer =>
      if decide (status transfer ≠ receiving) then ok st else
      let st1 := set_transfers
          (insert transferId (set_status complete transfer)) st in
      ok (emitEvent
            (EvFileReceived transferId (md_fileName (meta transfer))
               (Some (md_fileType (meta transfer)))
               (Some (md_fileSize (meta transfer)))) st1)
  end.

(** [handleIncomingFileChunk(transferId, chunkIndex, chunk, metadata)] *)
Definition handleIncomingFileChunk (transferId : string) (chunkIndex : Z)
    (chunk : Bytes) (metadata : ChunkMeta) (st : State) : Outcome :=
  match transfers st !! transferId with
  | None => ok st
  | Some transfer =>
      if decide (status transfer ≠ receiving) then ok st else
      match fields transfer with
      | SenderFields _ _ _ _ => throw TypeError st
      | ReceiverFields senderId receivedChunks missingChunks =>
          let receivedChunks' := <[chunkIndex := chunk]> receivedChunks in
          let st1 := set_transfers
              (insert transferId
                 (mkTransfer (meta transfer) (status transfer)
                    (ReceiverFields senderId receivedChunks' missingChunks)))
              st in
          let st2 :=
            if transferWorker st1
            then postToWorker
                   (ProcessChunk transferId chunk chunkIndex metadata) st1
            else st1 in
          let st3 := sendTcpMessage
              (MsgFileChunkAck transferId chunkIndex "received" senderId) st2 in
          if Z.of_nat (size receivedChunks') =? totalChunks transfer
          then assembleFile transferId st3
          else ok st3
      end
  end.

(** [handleChunkAcknowledgment(transferId, chunkIndex, status)] *)
Definition handleChunkAcknowledgment (transferId : string) (chunkIndex : Z)
    (status_ : string) (st : State) : Outcome :=
  match transfers st !! transferId with
  | None => ok st
  | Some transfer =>
      if decide (status transfer ≠ sending) then ok st else
      if decide (status_ = "received") then
        match fields transfer with
        | ReceiverFields _ _ _ => throw TypeError st
        | SenderFields rid sentChunks acknowledgedChunks retries =>
            let acknowledgedChunks' := {[chunkIndex]} ∪ acknowledgedChunks in
            let '(retries', st1) :=
              match retries !! chunkIndex with
              | Some retryInfo =>
                  if decide (timeout retryInfo ≠ 0%nat)
                  then (delete chunkIndex retries,
                        clearTimeout (timeout retryInfo) st)
                  else (retries, st)
              | None => (retries, st)
              end in
            let record s :=
              mkTransfer (meta transfer) s
                (SenderFields rid sentChunks acknowledgedChunks' retries') in
            if Z.of_nat (size acknowledgedChunks') =? totalChunks transfer then
              ok (emitEvent (EvComplete transferId true)
                    (set_transfers (insert transferId (record complete)) st1))
            else
              ok (set_transfers
                    (insert transferId (record (status transfer))) st1)
        end
      else ok st
  end.

(** [completeFileReceive(transferId, metadata)]; the [metadata] is the one
    of the chunk message, which has no [fileType] and no [fileSize]. *)
Definition completeFileReceive (transferId : string) (metadata : ChunkMeta)
    (st : State) : Outcome :=
  match transfers st !! transferId with
  | None => ok st
  | Some transfer =>
      let st1 := set_transfers
          (insert transferId (set_status complete transfer)) st in
      ok (emitEvent
            (EvFileReceived transferId (cm_fileName metadata) None None) st1)
  end.

(** [transfer.retries.forEach(retry => { if (retry.timeout)
    clearTimeout(retry.timeout) })] *)
Definition clearRetryTimeouts (retries : gmap Z RetryInfo) (st : State) : State :=
  foldr (λ retry s,
           if decide (timeout retry ≠ 0%nat)
           then clearTimeout (timeout retry) s else s)
        st (map_to_list retries).*2.

(** [cancelTransfer(transferId)] *)
Definition cancelTransfer (transferId : string) (st : State) : Outcome :=
  match transfers st !! transferId with
  | None => ok st
  | Some transfer =>
      let cleaned : Outcome :=
        if decide (status transfer = sending) then
          match fields transfer with
          | ReceiverFields _ _ _ => throw TypeError st
          | SenderFields rid _ _ retries =>
              ok (sendTcpMessage
                    (MsgFileTransferCancel transferId (Some rid))
                    (clearRetryTimeouts retries st))
          end
        else if decide (status transfer = receiving) then
          ok (sendTcpMessage
                (MsgFileTransferCancel transferId
                   match fields transfer with
                   | ReceiverFields sid _ _ => Some sid
                   | SenderFields _ _ _ _ => None
                   end)
                st)
        else ok st in
      match cleaned with
      | (st1, Some e) => (st1, Some e)
      | (st1, None) =>
          let st2 :=
            if transferWorker st1
            then postToWorker (AbortTransfer transferId) st1 else st1 in
          let st3 := set_transfers
              (insert transferId (set_status cancelled transfer)) st2 in
          let st4 := emitEvent (EvCancelled transferId) st3 in
          ok (setTimeout (DeleteCb transferId) st4).2
      end
  end.

(** [init()] with [initWorker()]; [windowWorker] is [window.Worker]. *)
Definition init_ (windowWorker : bool) (st : State) : State :=
  if initialized st then st
  else mkState (transfers st) true (if windowWorker then true else transferWorker st)
               (net st) (timers st) (nextTimer st) (emitted st) (toWorker st).

(** [sendFile(file, receiverId)]; [fileId] is the generated
    [file-<now>-<random>] string, which is also the result. *)
Definition sendFile (windowWorker : bool) (fileId : string) (file : File)
    (receiverId : string) (st : State) : string * State :=
  let st1 := if initialized st then st else init_ windowWorker st in
  (fileId,
   if transferWorker st1
   then postToWorker (ProcessFile fileId file receiverId) st1
   else st1).

(** [this.transferWorker.onmessage] *)
Definition onWorkerMessage (m : WorkerMsg) (st : State) : Outcome :=
  match m with
  | WSendMetadata transferId metadata receiverId =>
      sendFileMetadata transferId metadata receiverId st
  | WSendChunk transferId chunkIndex chunk isLast receiverId =>
      sendFileChunk transferId chunkIndex chunk isLast receiverId st
  | WProgressUpdate transferId progress =>
      ok (emitEvent (EvProgress transferId progress) st)
  | WTransferComplete transferId success =>
      ok (emitEvent (EvComplete transferId success) st)
  | WTransferError transferId err =>
      ok (emitEvent (EvError transferId err) st)
  | WChunkReceived transferId _ _ progress =>
      ok (emitEvent (EvReceiveProgress transferId progress) st)
  | WReceiveComplete transferId metadata =>
      completeFileReceive transferId metadata st
  | WTransferAborted transferId =>
      ok (emitEvent (EvAborted transferId) st)
  end.

(** [handleNetworkMessage(message)] *)
Definition handleNetworkMessage (m : InMessage) (st : State) : Outcome :=
  match m with
  | InFileMetadata metadata senderId =>
      handleIncomingFileMetadata metadata senderId st
  | InFileChunk transferId chunkIndex chunk metadata =>
      handleIncomingFileChunk transferId chunkIndex chunk metadata st
  | InFileChunkAck transferId chunkIndex status_ =>
      handleChunkAcknowledgment transferId chunkIndex status_ st
  | InFileTransferCancel transferId => cancelTransfer transferId st
  | InOther => ok st
  end.

(** A pending timer fires: it leaves the pending set and its callback
    runs. *)
Definition fireTimer (h : nat) (st : State) : Outcome :=
  match timers st !! h with
  | None => ok st
  | Some cb =>
      let st1 := clearTimeout h st in
      match cb with
      | RetryCb transferId chunkIndex receiverId =>
          retryChunk transferId chunkIndex receiverId st1
      | DeleteCb transferId => ok (set_transfers (delete transferId) st1)
      end
  end.

(** One turn of the main thread's event loop.  [init] registers
    [handleNetworkMessage] with the network manager, so a network message
    reaches the manager only once it is initialized; [SocketConnected] is
    the socket's ['connect']/['disconnect'] event. *)
Inductive Input :=
| CallInit (windowWorker : bool)
| CallSendFile (windowWorker : bool) (fileId : string) (file : File)
               (receiverId : string)
| CallCancelTransfer (transferId : string)
| FromWorker (m : WorkerMsg)
| FromNetwork (m : InMessage)
| TimerFires (h : nat)
| SocketConnected (b : bool).

Definition handle (i : Input) (st : State) : Outcome :=
  match i with
  | CallInit ww => ok (init_ ww st)
  | CallSendFile ww fileId file receiverId =>
      ok (sendFile ww fileId file receiverId st).2
  | CallCancelTransfer transferId => cancelTransfer transferId st
  | FromWorker m => onWorkerMessage m st
  | FromNetwork m =>
      if initialized st then handleNetworkMessage m st else ok st
  | TimerFires h => fireTimer h st
  | SocketConnected b => ok (set_net (Net.mkState b (Net.sent (net st))) st)
  end.

(** An exception that leaves a handler is reported by the event loop; the
    state keeps what the handler did before it threw. *)
Definition step (st : State) (i : Input) : State := (handle i st).1.

Definition run (st : State) (inputs : list Input) : State :=
  fold_left step inputs st.

End FT.

(* ===================================================================== *)
(** ** The manager together with its worker                               *)
(* ===================================================================== *)

Module Sys.

(** The main thread and the transfer worker exchange messages through two
    queues: [FT.toWorker] and [Worker.posted] are the logs of what was
    posted, [taken] and [delivered] count how many entries the other side
    has handled so far (messages are handled in posting order). *)
Record State := mkState {
  main : FT.State;
  worker : Worker.State;
  taken : nat;
  delivered : nat
}.

Definition init (n : Net.State) : State :=
  mkState (FT.init n) Worker.init 0 0.

Inductive Step :=
| Main (i : FT.Input)
    (** a call of the application, a network message, a timer *)
| WorkerTakes (now1 now2 : Z)
    (** the worker's [onmessage] runs for the next message of the main
        thread *)
| ReaderLoads (k : nat)
| ReaderFails (k : nat)
| Deliver
    (** the manager's [transferWorker.onmessage] runs for the next message
        of the worker *).

Definition step (s : State) (x : Step) : State :=
  match x with
  | Main i => mkState (FT.step (main s) i) (worker s) (taken s) (delivered s)
  | WorkerTakes now1 now2 =>
      match FT.toWorker (main s) !! taken s with
      | None => s
      | Some m =>
          mkState (main s) (Worker.onmessage m now1 now2 (worker s))
                  (S (taken s)) (delivered s)
      end
  | ReaderLoads k =>
      mkState (main s) (Worker.onload k (worker s)) (taken s) (delivered s)
  | ReaderFails k =>
      mkState (main s) (Worker.onerror k (worker s)) (taken s) (delivered s)
  | Deliver =>
      match Worker.posted (worker s) !! delivered s with
      | None => s
      | Some m =>
          mkState (FT.step (main s) (FT.FromWorker m)) (worker s) (taken s)
                  (S (delivered s))
      end
  end.

Definition run (s : State) (xs : list Step) : State := fold_left step xs s.

End Sys.

(* ===================================================================== *)
(** ** Observations used in the statements                                *)
(* ===================================================================== *)

(** The sender-side sets of a record ([None] for a receiving record). *)
Definition sentChunks_of (t : FT.Transfer) : option (gset Z) :=
  match FT.fields t with
  | FT.SenderFields _ s _ _ => Some s
  | FT.ReceiverFields _ _ _ => None
  end.

Definition acknowledgedChunks_of (t : FT.Transfer) : option (gset Z) :=
  match FT.fields t with
  | FT.SenderFields _ _ a _ => Some a
  | FT.ReceiverFields _ _ _ => None
  end.

Definition retries_of (t : FT.Transfer) : option (gmap Z FT.RetryInfo) :=
  match FT.fields t with
  | FT.SenderFields _ _ _ r => Some r
  | FT.ReceiverFields _ _ _ => None
  end.

Definition receivedChunks_of (t : FT.Transfer) : option (gmap Z Bytes) :=
  match FT.fields t with
  | FT.ReceiverFields _ r _ => Some r
  | FT.SenderFields _ _ _ _ => None
  end.

(** The indices [0, 1, ..., n-1]. *)
Definition indices (n : Z) : list Z := seqZ 0 n.

(** The events that report a terminal status of [transferId]: ['complete']
    and ['file-received'] (status [complete]), ['error'], ['cancelled']. *)
Definition terminal_for (transferId : string) (e : Event) : bool :=
  match e with
  | EvComplete t _ | EvError t _ | EvCancelled t | EvFileReceived t _ _ _ =>
      bool_decide (t = transferId)
  | _ => false
  end.

Definition terminal_events (transferId : string) (st : FT.State) : list Event :=
  List.filter (terminal_for transferId) (FT.emitted st).

(** Following the spec's words ("concatenate chunks by ascending index into
    the final byte sequence"): the concatenation of
    [receivedChunks[0..totalChunks)]; a missing index contributes nothing.
    The source has no such function ([assembleFile] leaves it to "a real
    implementation"). *)
Definition reassemble (totalChunks : Z) (receivedChunks : gmap Z Bytes) : Bytes :=
  concat (map (λ i, default [] (receivedChunks !! i)) (indices totalChunks)).

(** The messages of a given channel in the network log. *)
Definition sent_on (c : Channel) (st : FT.State) : list NetMessage :=
  (List.filter (λ cm, bool_decide (cm.1 = c)) (Net.sent (FT.net st))).*2.

(** [acknowledgedChunks ⊆ sentChunks] for one record and for every record
    of the manager. *)
Definition ack_ok (t : FT.Transfer) : Prop :=
  match FT.fields t with
  | FT.SenderFields _ sent acked _ => acked ⊆ sent
  | FT.ReceiverFields _ _ _ => True
  end.

#[global] Instance ack_ok_dec t : Decision (ack_ok t).
Proof. unfold ack_ok. destruct (FT.fields t); apply _. Defined.

Definition ack_subset_sent (st : FT.State) : Prop :=
  map_Forall (λ _ t, ack_ok t) (FT.transfers st).

(** Index [idx] is in [sentChunks] of the record [transferId], if there is
    such a sending-side record. *)
Definition dispatched (st : FT.State) (transferId : string) (idx : Z) : Prop :=
  match FT.transfers st !! transferId with
  | Some t => match FT.fields t with
              | FT.SenderFields _ sent _ _ => idx ∈ sent
              | FT.ReceiverFields _ _ _ => True
              end
  | None => True
  end.

#[global] Instance dispatched_dec st transferId idx :
  Decision (dispatched st transferId idx).
Proof.
  unfold dispatched. destruct (FT.transfers st !! transferId) as [t|]; [|apply _].
  destruct (FT.fields t); apply _.
Defined.

Arguments FT.clearRetryTimeouts : simpl never.

(** No record has the status ['error']. *)
Definition no_error (st : FT.State) : Prop :=
  map_Forall (λ _ t, FT.status t ≠ error) (FT.transfers st).

(** *** The worker's run over one file *)

Module WorkerRun.
Section OneFile.
Variables (fileId : string) (file : File) (receiverId : string) (now1 now2 : Z).

Definition transferId : string := fileId +:+ "-" +:+ pretty now1.
Definition total : Z := ceil_div (file_size file) CHUNK_SIZE.

Definition metadata : Metadata :=
  mkMetadata transferId fileId (file_name file) (file_type file)
             (file_size file) total now2 None.

(** What [onload] posts for chunk [i]. *)
Definition chunk_posts (i : Z) : list WorkerMsg :=
  [WSendChunk transferId i (Worker.readNextChunk file i) (i =? total - 1)
              receiverId;
   WProgressUpdate transferId (mkProgress (i + 1) total)].

(** The worker after [j] chunks were read: the transfer object, the
    reader and the messages posted so far. *)
Definition at_chunk (j : nat) (s : Status) (pending : bool)
    (last : list WorkerMsg) : Worker.State :=
  Worker.mkState
    [Worker.mkWTransfer fileId (file_name file) (file_type file)
                        (file_size file) receiverId total (Z.of_nat j) s]
    {[transferId := 0%nat]}
    [Worker.mkReader transferId file 0 (Z.of_nat j) pending]
    (WSendMetadata transferId metadata receiverId
     :: concat (map chunk_posts (indices (Z.of_nat j))) ++ last).

End OneFile.
End WorkerRun.

(** The chunk messages of [file] with the given indices arrive in list
    order. *)
Definition deliver_chunks (transferId : string) (cm : ChunkMeta) (file : File)
    (idxs : list Z) (st : FT.State) : FT.State :=
  fold_left
    (λ s i, (FT.handleIncomingFileChunk transferId i
               (Worker.readNextChunk file i) cm s).1)
    idxs st.

(** [receivedChunks] after the chunks [0 .. j-1] of [file] were stored. *)
Fixpoint stored (file : File) (j : nat) : gmap Z Bytes :=
  match j with
  | O => ∅
  | S j' => <[Z.of_nat j' := Worker.readNextChunk file (Z.of_nat j')]>
              (stored file j')
  end.


(** Every ['sending'] record lacks the [chunks] property. *)
Definition sending_chunkless (st : FT.State) : Prop :=
  map_Forall (λ _ t, FT.status t = sending → FT.chunks t = None)
             (FT.transfers st).

(** A worker message is what the worker script can post: the metadata of
    [send-metadata] is the literal of [processFile], without [chunks]. *)
Definition worker_made (m : WorkerMsg) : Prop :=
  match m with
  | WSendMetadata _ md _ => md_chunks md = None
  | _ => True
  end.

(** Steps of the system in which no worker message is forged: the manager
    gets worker messages only through [Sys.Deliver]. *)
Definition external (x : Sys.Step) : Prop :=
  match x with
  | Sys.Main (FT.FromWorker _) => False
  | _ => True
  end.

(* ===================================================================== *)
(** ** Concrete runs                                                      *)
(* ===================================================================== *)

Module Scenario.

Definition one_byte_file : File := mkFile "a.txt" "text/plain" [Byte.x01].
Definition empty_file : File := mkFile "empty.txt" "text/plain" [].

Definition online : Net.State := Net.mkState true [].
Definition offline : Net.State := Net.mkState false [].

(** [sendFile(file, "bob")] in a browser with workers; the worker handles
    [process-file] (the clock reads 7, then 8), the reader loads once (a
    file of at most one chunk needs one read), and the manager handles the
    four messages the worker posted.  No message from the peer arrives. *)
Definition send_small_file (n : Net.State) (file : File) : Sys.State :=
  Sys.run (Sys.init n)
    [Sys.Main (FT.CallSendFile true "f" file "bob");
     Sys.WorkerTakes 7 8; Sys.ReaderLoads 0;
     Sys.Deliver; Sys.Deliver; Sys.Deliver; Sys.Deliver].

(** Up to the point where the manager has handled [send-metadata] only. *)
Definition send_metadata_only (n : Net.State) (file : File) : Sys.State :=
  Sys.run (Sys.init n)
    [Sys.Main (FT.CallSendFile true "f" file "bob");
     Sys.WorkerTakes 7 8; Sys.Deliver].

(** Metadata as a peer sends it for a transfer ["t"] of [n] chunks. *)
Definition metadata_of (size n : Z) : Metadata :=
  mkMetadata "t" "f" "a.txt" "text/plain" size n 8 None.

(** An initialized receiver (with a worker) that got the metadata of a
    transfer of [n] chunks from "alice". *)
Definition receiver_ready (size n : Z) : Sys.State :=
  Sys.run (Sys.init online)
    [Sys.Main (FT.CallInit true);
     Sys.Main (FT.FromNetwork (InFileMetadata (metadata_of size n) "alice"))].

(** The chunk message of index [i] of that transfer. *)
Definition chunk_msg (i n : Z) (chunk : Bytes) : FT.Input :=
  FT.FromNetwork (InFileChunk "t" i chunk (mkChunkMeta "a.txt" n)).

(** The worker handles the next [process-chunk] and the manager handles
    what the worker posted for it (at most two messages). *)
Definition worker_round : list Sys.Step :=
  [Sys.WorkerTakes 0 0; Sys.Deliver; Sys.Deliver].

End Scenario.

(* ===================================================================== *)
(** ** network.js and tcp-client.js: a file over a TCP connection         *)
(* ===================================================================== *)

Module TcpTransfer.

(** ['\n'] *)
Definition newline : Byte.byte := Byte.x0a.

#[global] Instance byte_eq_dec : EqDecision Byte.byte := Byte.byte_eq_dec.

(** [data.indexOf('\n')]: the index of the first newline byte, [None] for
    [-1]. *)
Fixpoint indexOf_newline (data : Bytes) : option nat :=
  match data with
  | [] => None
  | b :: rest =>
      if decide (b = newline) then Some 0%nat
      else S <$> indexOf_newline rest
  end.

Section WithJson.
(** The values of [fileInfo] with [JSON.stringify] and [JSON.parse];
    [parse] gives [None] where [JSON.parse] throws a [SyntaxError], and
    [truthy] is the value's truth value (an object is truthy, [null], [0],
    [false] and the empty string are not). *)
Context {Info : Type} (stringify : Info → Bytes) (parse : Bytes → option Info)
  (truthy : Info → bool).

(** [TcpClient.sendFile]: [client.write(JSON.stringify(fileInfo) + '\n')],
    [client.write(fileData)], [client.end()]: the bytes put on the
    connection. *)
Definition sendFile (fileInfo : Info) (fileData : Bytes) : Bytes :=
  (stringify fileInfo ++ [newline]) ++ fileData.

(** The variables of one connection of [tcpServer]: [fileData] and
    [fileInfo] ([None] for [null]). *)
Record Conn := mkConn {
  fileData : Bytes;
  fileInfo : option Info
}.

Definition connected : Conn := mkConn [] None.

(** The test [if (fileInfo)]. *)
Definition has_info (c : Conn) : bool :=
  match fileInfo c with
  | Some info => truthy info
  | None => false
  end.

(** [socket.on('data', ...)]: the result is [None] when [JSON.parse]
    throws. *)
Definition on_data (data : Bytes) (c : Conn) : option Conn :=
  if has_info c then Some (mkConn (fileData c ++ data) (fileInfo c))
  else
    match indexOf_newline data with
    | Some metaEndIndex =>
        match parse (take metaEndIndex data) with
        | Some info =>
            Some (mkConn (fileData c ++ drop (S metaEndIndex) data)
                         (Some info))
        | None => None
        end
    | None => Some c
    end.

(** The ['data'] events of a connection, one per segment, in order. *)
Fixpoint receive (segments : list Bytes) (c : Conn) : option Conn :=
  match segments with
  | [] => Some c
  | data :: rest =>
      match on_data data c with
      | Some c' => receive rest c'
      | None => None
      end
  end.

(** [socket.on('end', ...)]: what is handed to the worker that writes the
    file, if anything. *)
Definition on_end (c : Conn) : option (Info * Bytes) :=
  match fileInfo c with
  | Some info => if truthy info then Some (info, fileData c) else None
  | None => None
  end.

End WithJson.
End TcpTransfer.

(* ===================================================================== *)
(** ** server.js: [class ConnectionWorker] and [class ChatServer]         *)
(* ===================================================================== *)

(** The [message] objects the server passes on; it reads their [type]
    only, and [status] of a ['status'] message. *)
Inductive ChatMessage :=
| ChatMsg (text : string)
| StatusMsg (status : string)
| OtherMsg (type : string).

Module ConnectionWorker.

(** A value of [this.clients]: [{ ...clientData, active: true, lastSeen }]
    with [status] once [updateClientStatus] has set it.  [lastSeen] is
    written once and never read; it is left out. *)
Record Client := mkClient {
  userId : string;
  connectionType : Channel;
  active : bool;
  status : option string
}.

(** What the main thread posts to a worker thread. *)
Inductive Cmd :=
| AddClient (clientId userId : string) (connectionType : Channel)
| RemoveClient (clientId : string)
| Message (clientId : string) (message : ChatMessage)
| Shutdown.

(** What a worker thread posts to the main thread. *)
Inductive Post :=
| Ready
| Send (clientId : string) (message : ChatMessage)
| ShutdownComplete.

(** [clients] is a [Map]: it keeps its keys in insertion order, which is
    the order [forEach] visits them in. *)
Record State := mkState {
  clients : list (string * Client);
  worker_active : bool;
  posted : list Post
}.

(** [new ConnectionWorker(workerId)] and the ['ready'] message. *)
Definition init : State := mkState [] true [Ready].

(** [Map.prototype.set]: an existing key keeps its place. *)
Fixpoint map_set (k : string) (v : Client) (m : list (string * Client)) :
    list (string * Client) :=
  match m with
  | [] => [(k, v)]
  | (k', v') :: rest =>
      if decide (k' = k) then (k, v) :: rest else (k', v') :: map_set k v rest
  end.

Definition map_get (k : string) (m : list (string * Client)) : option Client :=
  snd <$> List.find (λ kv, bool_decide (kv.1 = k)) m.

Definition map_delete (k : string) (m : list (string * Client)) :
    list (string * Client) :=
  List.filter (λ kv, bool_decide (kv.1 ≠ k)) m.

(** [broadcastMessage(senderId, message)] *)
Definition broadcastMessage (senderId : string) (message : ChatMessage)
    (w : State) : State :=
  mkState (clients w) (worker_active w)
    (posted w ++
     omap (λ kv : string * Client,
             if bool_decide (kv.1 ≠ senderId) && active kv.2
             then Some (Send kv.1 message) else None)
          (clients w)).

(** [updateClientStatus(clientId, statusData)] *)
Definition updateClientStatus (clientId : string) (status_ : string)
    (w : State) : State :=
  match map_get clientId (clients w) with
  | Some client =>
      mkState (map_set clientId
                 (mkClient (userId client) (connectionType client)
                           (active client) (Some status_))
                 (clients w))
              (worker_active w) (posted w)
  | None => w
  end.

(** [handleMessage(clientId, message)] *)
Definition handleMessage (clientId : string) (message : ChatMessage)
    (w : State) : State :=
  match message with
  | ChatMsg _ => broadcastMessage clientId message w
  | StatusMsg s => updateClientStatus clientId s w
  | OtherMsg _ => w
  end.

(** [addClient(clientId, clientData)] *)
Definition addClient (clientId userId_ : string) (ct : Channel) (w : State) :
    State :=
  mkState (map_set clientId (mkClient userId_ ct true None) (clients w))
          (worker_active w) (posted w).

(** [removeClient(clientId)] *)
Definition removeClient (clientId : string) (w : State) : State :=
  mkState (map_delete clientId (clients w)) (worker_active w) (posted w).

(** [parentPort.on('message', ...)] *)
Definition on_message (w : State) (c : Cmd) : State :=
  match c with
  | AddClient clientId userId_ ct => addClient clientId userId_ ct w
  | RemoveClient clientId => removeClient clientId w
  | Message clientId message => handleMessage clientId message w
  | Shutdown => mkState (clients w) false (posted w ++ [ShutdownComplete])
  end.

(** A worker thread handles what the main thread posts in posting order. *)
Definition run (cmds : list Cmd) : State := fold_left on_message cmds init.

End ConnectionWorker.

Module ChatServer.

(** [const MAX_WORKERS = 4] *)
Definition MAX_WORKERS : nat := 4.

(** The server: the [clientCount] of each entry of [this.workers] (the
    entry at index [i] has [id] [i]), [clientWorkerMap], [onlineUsers] (a
    [Set], in insertion order), and two logs: what was posted to the
    worker threads, with the worker's id, and the [getOnlineUsers]
    broadcasts. *)
Record State := mkState {
  workers : list nat;
  clientWorkerMap : gmap string nat;
  onlineUsers : list string;
  toWorker : list (nat * ConnectionWorker.Cmd);
  broadcasts : list (list string)
}.

(** After [start()]: [initWorkers] has made [MAX_WORKERS] entries with
    [clientCount: 0]. *)
Definition started : State :=
  mkState (replicate MAX_WORKERS 0%nat) ∅ [] [] [].

(** The loop of [assignWorker]: the index and the count of
    [leastBusyWorker] after the workers from index [i] on. *)
Fixpoint least_busy (ws : list nat) (i : nat) (best : nat * nat) : nat * nat :=
  match ws with
  | [] => best
  | c :: rest =>
      least_busy rest (S i) (if (c <? best.2)%nat then (i, c) else best)
  end.

(** [assignWorker()]: [None] when [this.workers] is empty
    ([leastBusyWorker] is [undefined] and reading its [clientCount]
    throws). *)
Definition assignWorker (st : State) : option (nat * State) :=
  match workers st with
  | [] => None
  | c0 :: _ =>
      let i := (least_busy (workers st) 0 (0%nat, c0)).1 in
      Some (i, mkState (alter S i (workers st)) (clientWorkerMap st)
                       (onlineUsers st) (toWorker st) (broadcasts st))
  end.

(** [sendToWorker(workerId, message)] *)
Definition sendToWorker (workerId : nat) (c : ConnectionWorker.Cmd)
    (st : State) : State :=
  if decide (workerId < length (workers st))%nat
  then mkState (workers st) (clientWorkerMap st) (onlineUsers st)
               (toWorker st ++ [(workerId, c)]) (broadcasts st)
  else st.

(** [broadcastOnlineUsers()] *)
Definition broadcastOnlineUsers (st : State) : State :=
  mkState (workers st) (clientWorkerMap st) (onlineUsers st) (toWorker st)
          (broadcasts st ++ [onlineUsers st]).

Definition set_add (u : string) (s : list string) : list string :=
  if decide (u ∈ s) then s else s ++ [u].

Definition set_delete (u : string) (s : list string) : list string :=
  List.filter (λ v, bool_decide (v ≠ u)) s.

Definition set_online (f : list string → list string) (st : State) : State :=
  mkState (workers st) (clientWorkerMap st) (f (onlineUsers st))
          (toWorker st) (broadcasts st).

Definition set_map (f : gmap string nat → gmap string nat) (st : State) :
    State :=
  mkState (workers st) (f (clientWorkerMap st)) (onlineUsers st)
          (toWorker st) (broadcasts st).

(** [tcpServer.on('connection', ...)]; the state is the one reached when
    [assignWorker] throws. *)
Definition on_connection (clientId userId : string) (st : State) : State :=
  let st1 := set_online (set_add userId) st in
  match assignWorker st1 with
  | None => st1
  | Some (workerId, st2) =>
      let st3 := set_map (insert clientId workerId) st2 in
      let st4 := sendToWorker workerId
          (ConnectionWorker.AddClient clientId userId TCP) st3 in
      broadcastOnlineUsers st4
  end.

(** [socket.on('message', ...)] of the socket [clientId]. *)
Definition on_socket_message (clientId : string) (message : ChatMessage)
    (st : State) : State :=
  match clientWorkerMap st !! clientId with
  | Some workerId =>
      sendToWorker workerId (ConnectionWorker.Message clientId message) st
  | None => st
  end.

(** [socket.on('disconnect', ...)] of the socket [clientId] of [userId]. *)
Definition on_disconnect (clientId userId : string) (st : State) : State :=
  let st1 :=
    match clientWorkerMap st !! clientId with
    | Some workerId =>
        set_map (delete clientId)
          (sendToWorker workerId (ConnectionWorker.RemoveClient clientId) st)
    | None => st
    end in
  broadcastOnlineUsers (set_online (set_delete userId) st1).

(** [udpServer.on('message', ...)] for a datagram that parses to an
    object with [clientId] and [userId]; the exception of [assignWorker]
    is caught. *)
Definition on_udp (clientId userId : string) (message : ChatMessage)
    (st : State) : State :=
  let added :=
    match clientWorkerMap st !! clientId with
    | Some _ => Some st
    | None =>
        match assignWorker st with
        | None => None
        | Some (workerId, st1) =>
            Some (sendToWorker workerId
                    (ConnectionWorker.AddClient clientId userId UDP)
                    (set_map (insert clientId workerId) st1))
        end
    end in
  match added with
  | None => st
  | Some st2 =>
      match clientWorkerMap st2 !! clientId with
      | Some workerId =>
          sendToWorker workerId (ConnectionWorker.Message clientId message) st2
      | None => st2
      end
  end.

Inductive Event :=
| Connection (clientId userId : string)
| SocketMessage (clientId : string) (message : ChatMessage)
| Disconnect (clientId userId : string)
| Udp (clientId userId : string) (message : ChatMessage).

Definition step (st : State) (e : Event) : State :=
  match e with
  | Connection c u => on_connection c u st
  | SocketMessage c m => on_socket_message c m st
  | Disconnect c u => on_disconnect c u st
  | Udp c u m => on_udp c u m st
  end.

Definition run (st : State) (evs : list Event) : State := fold_left step evs st.






End ChatServer.

(* ===================================================================== *)
(** ** networking.js: [class NetworkWorker] and [class NetworkManager]    *)
(* ===================================================================== *)

Module NetworkManager.

(** An argument of [onMessage]/[offMessage]: a function, named by a
    number (functions are compared by identity), or another value. *)
Inductive Handler := Fn (id : nat) | NotAFunction.

#[global] Instance Handler_eq_dec : EqDecision Handler.
Proof. solve_decision. Defined.

Section WithMessage.
Context {M : Type}.

(** What [NetworkWorker] posts to its worker. *)
Inductive WorkerCmd := UdpSend (m : M) | TcpSend (m : M) | Close.

(** The manager with its [networkWorker]: [active] and whether [worker]
    is set, whether [socketIO] is set, [connected], [messageHandlers],
    and three logs: the messages posted to the worker, the
    [socketIO.emit('message', ...)] calls and the handler calls. *)
Record State := mkState {
  active : bool;
  worker : bool;
  socketIO : bool;
  connected : bool;
  messageHandlers : list nat;
  toWorker : list WorkerCmd;
  emitted : list M;
  called : list (nat * M)
}.

(** [new NetworkManager()]; [windowWorker] is [window.Worker]. *)
Definition init (windowWorker : bool) : State :=
  mkState windowWorker windowWorker false false [] [] [] [].

Definition post (c : WorkerCmd) (st : State) : State :=
  mkState (active st) (worker st) (socketIO st) (connected st)
          (messageHandlers st) (toWorker st ++ [c]) (emitted st) (called st).

Definition set_connected (b : bool) (st : State) : State :=
  mkState (active st) (worker st) (socketIO st) b
          (messageHandlers st) (toWorker st) (emitted st) (called st).

Definition set_handlers (hs : list nat) (st : State) : State :=
  mkState (active st) (worker st) (socketIO st) (connected st)
          hs (toWorker st) (emitted st) (called st).

(** [NetworkWorker.sendUdpMessage] and [sendTcpMessage] *)
Definition worker_send (c : WorkerCmd) (st : State) : State :=
  if active st && worker st then post c st else st.

(** [NetworkWorker.terminate()] *)
Definition terminate (st : State) : State :=
  if worker st
  then let st1 := post Close st in
       mkState false (worker st1) (socketIO st1) (connected st1)
               (messageHandlers st1) (toWorker st1) (emitted st1) (called st1)
  else st.

(** [connect(userId)] *)
Definition connect (st : State) : State :=
  mkState (active st) (worker st) true (connected st)
          (messageHandlers st) (toWorker st) (emitted st) (called st).

(** [sendUdpMessage(message)]: the state and the result. *)
Definition sendUdpMessage (m : M) (st : State) : State * bool :=
  if connected st then (worker_send (UdpSend m) st, true) else (st, false).

(** [sendTcpMessage(message)]: the result is [None] when
    [this.socketIO.emit] throws because [socketIO] is [null]. *)
Definition sendTcpMessage (m : M) (st : State) : State * option bool :=
  if connected st then
    if socketIO st then
      let st1 := mkState (active st) (worker st) (socketIO st) (connected st)
                   (messageHandlers st) (toWorker st) (emitted st ++ [m])
                   (called st) in
      (worker_send (TcpSend m) st1, Some true)
    else (st, None)
  else (st, Some false).

(** [onMessage(handler)] *)
Definition onMessage (h : Handler) (st : State) : State :=
  match h with
  | Fn id => set_handlers (messageHandlers st ++ [id]) st
  | NotAFunction => st
  end.

(** [offMessage(handler)] *)
Definition offMessage (h : Handler) (st : State) : State :=
  set_handlers
    (List.filter (λ id, bool_decide (Fn id ≠ h)) (messageHandlers st)) st.

(** [disconnect()] *)
Definition disconnect (st : State) : State :=
  set_connected false (terminate st).

(** The socket's ['message'] event:
    [this.messageHandlers.forEach(handler => handler(message))]; a handler
    that throws ends the loop. *)
Fixpoint dispatch (throws : nat → M → bool) (m : M) (hs : list nat) :
    list (nat * M) :=
  match hs with
  | [] => []
  | h :: rest =>
      (h, m) :: (if throws h m then [] else dispatch throws m rest)
  end.

Inductive Op :=
| Connect
| SocketConnect
| SocketDisconnect
| SocketMessage (m : M)
| WorkerClosed
| SendUdp (m : M)
| SendTcp (m : M)
| OnMessage (h : Handler)
| OffMessage (h : Handler)
| Disconnect.

(** The events of a socket can only occur once [connect] has made one;
    [WorkerClosed] is the worker's ['closed'] message. *)
Definition step (throws : nat → M → bool) (st : State) (o : Op) : State :=
  match o with
  | Connect => connect st
  | SocketConnect => if socketIO st then set_connected true st else st
  | SocketDisconnect => if socketIO st then set_connected false st else st
  | SocketMessage m =>
      if socketIO st
      then mkState (active st) (worker st) (socketIO st) (connected st)
             (messageHandlers st) (toWorker st) (emitted st)
             (called st ++ dispatch throws m (messageHandlers st))
      else st
  | WorkerClosed => set_connected false st
  | SendUdp m => (sendUdpMessage m st).1
  | SendTcp m => (sendTcpMessage m st).1
  | OnMessage h => onMessage h st
  | OffMessage h => offMessage h st
  | Disconnect => disconnect st
  end.

Definition run (throws : nat → M → bool) (st : State) (ops : list Op) : State :=
  fold_left (step throws) ops st.

End WithMessage.
Arguments State : clear implicits.
Arguments Op : clear implicits.
Arguments WorkerCmd : clear implicits.
End NetworkManager.

(* ===================================================================== *)
(** ** fileTransfer.js: [on], [off], [emitEvent]                          *)
(* ===================================================================== *)

Module Listeners.

(** [this.listeners]: a [Map] from event names to [Set]s of callbacks; a
    [Set] keeps its elements in insertion order, and a callback is named
    by a number. *)
Abbreviation State := (gmap string (list nat)).

(** [on(event, callback)] *)
Definition on (event : string) (callback : nat) (ls : State) : State :=
  let set := default [] (ls !! event) in
  <[event := if decide (callback ∈ set) then set else set ++ [callback]]> ls.

(** [off(event, callback)] *)
Definition off (event : string) (callback : nat) (ls : State) : State :=
  match ls !! event with
  | Some set =>
      <[event := filter (λ c, c ≠ callback) set]> ls
  | None => ls
  end.

(** [emitEvent(event, data)]: the callbacks called, in order; an
    exception of a callback is caught and logged, the loop goes on. *)
Definition emitEvent (event : string) (ls : State) : list nat :=
  default [] (ls !! event).

Inductive Op :=
| On (event : string) (callback : nat)
| Off (event : string) (callback : nat)
| Clear.

Definition step (ls : State) (o : Op) : State :=
  match o with
  | On e c => on e c ls
  | Off e c => off e c ls
  | Clear => ∅
  end.

Definition run (ops : list Op) : State := fold_left step ops ∅.

End Listeners.

(* ===================================================================== *)
(** ** fileTransfer.js: [init], [destroy] and the network handler         *)
(* ===================================================================== *)

Module Lifecycle.

(** The manager and the number of functions
    [this.handleNetworkMessage.bind(this)] in
    [networkManager.messageHandlers]: [init] adds one, nothing removes
    one. *)
Record State := mkState {
  ft : FT.State;
  netHandlers : nat
}.


(** [init()] *)
Definition init (windowWorker : bool) (s : State) : State :=
  if FT.initialized (ft s) then s
  else mkState (FT.init_ windowWorker (ft s)) (S (netHandlers s)).

(** [this.transfers.forEach((transfer, transferId) =>
    this.cancelTransfer(transferId))] over the keys in the order of the
    [Map]; an exception ends the loop. *)
Fixpoint cancelAll (order : list string) (st : FT.State) : FT.Outcome :=
  match order with
  | [] => FT.ok st
  | transferId :: rest =>
      match FT.cancelTransfer transferId st with
      | (st1, None) => cancelAll rest st1
      | (st1, Some e) => (st1, Some e)
      end
  end.

(** [destroy()]; [order] lists the keys of [this.transfers] in the order
    of the [Map]. *)
Definition destroy (order : list string) (s : State) : State * option JsError :=
  match cancelAll order (ft s) with
  | (st1, None) =>
      (mkState
         (FT.mkState (FT.transfers st1) false false (FT.net st1)
            (FT.timers st1) (FT.nextTimer st1) (FT.emitted st1)
            (FT.toWorker st1))
         (netHandlers s), None)
  | (st1, Some e) => (mkState st1 (netHandlers s), Some e)
  end.

(** A message of the socket: each registered handler runs
    [handleNetworkMessage]; an exception ends the loop. *)
Fixpoint handleAll (n : nat) (m : InMessage) (st : FT.State) : FT.Outcome :=
  match n with
  | O => FT.ok st
  | S n' =>
      match FT.handleNetworkMessage m st with
      | (st1, None) => handleAll n' m st1
      | (st1, Some e) => (st1, Some e)
      end
  end.

Definition on_network (m : InMessage) (s : State) : State * option JsError :=
  let r := handleAll (netHandlers s) m (ft s) in
  (mkState r.1 (netHandlers s), r.2).

End Lifecycle.

(** The ['udp-send'] and ['tcp-send'] messages posted to the network
    worker. *)
Definition worker_sends {M} (st : NetworkManager.State M) :
    list (NetworkManager.WorkerCmd M) :=
  List.filter (λ c, match c with NetworkManager.Close => false | _ => true end)
              (NetworkManager.toWorker st).


(* ===================================================================== *)
(** ** Invariants of the runs                                             *)
(* ===================================================================== *)

(** The handles stored in the [retries] of a record are positive and below
    [n]. *)
Definition retry_handles_below (n : nat) (t : FT.Transfer) : Prop :=
  match FT.fields t with
  | FT.SenderFields _ _ _ retries =>
      map_Forall (λ _ ri, (0 < FT.timeout ri < n)%nat) retries
  | FT.ReceiverFields _ _ _ => True
  end.

(** Every handle in use was returned by [setTimeout]: the pending timers
    and the handles stored in the records are positive and below the next
    handle. *)
Definition timers_fresh (st : FT.State) : Prop :=
  (0 < FT.nextTimer st)%nat ∧
  map_Forall (λ h _, (0 < h < FT.nextTimer st)%nat) (FT.timers st) ∧
  map_Forall (λ _ t, retry_handles_below (FT.nextTimer st) t) (FT.transfers st).




(** ** Concrete inputs of further runs *)

Module Example.

(** The manager after the worker's [send-metadata] and [send-chunk] for a
    transfer ["t"] of one chunk: the record is ['sending'], chunk 0 was
    dispatched and its retry timer (handle 1) is pending. *)
Definition one_chunk_dispatched : list FT.Input :=
  [FT.FromWorker (WSendMetadata "t" (Scenario.metadata_of 1 1) "bob");
   FT.FromWorker (WSendChunk "t" 0 [Byte.x01] true "bob")].

(** The record of ["t"] in that state. *)
Definition sending_record : FT.Transfer :=
  FT.mkTransfer (Scenario.metadata_of 1 1) sending
    (FT.SenderFields "bob" {[0]} ∅ {[0 := FT.mkRetryInfo 0 1]}).

(** The same with the worker and the reader in the run. *)
Definition send_steps : list Sys.Step :=
  [Sys.Main (FT.CallSendFile true "f" Scenario.one_byte_file "bob");
   Sys.WorkerTakes 7 8; Sys.ReaderLoads 0;
   Sys.Deliver; Sys.Deliver; Sys.Deliver; Sys.Deliver].

(** A [fileInfo] that is its own JSON text: [{}]. *)
Definition json_text : Bytes := [Byte.x7b; Byte.x7d].


(** An initialized manager with the one-chunk transfer dispatched. *)
Definition initialized_sender : Lifecycle.State :=
  Lifecycle.mkState
    (FT.run (FT.init Scenario.online) (FT.CallInit true :: one_chunk_dispatched))
    1.

End Example.

(* ===================================================================== *)
(** * Properties                                                          *)
(* ===================================================================== *)

(** ** Worker pools *)

Section PoolFacts.
Context {Task Res : Type}.
Implicit Types (p : Pool.State Task Res) (evs : list (Pool.Event Task Res)).

Lemma processQueue_maxWorkers p :
  Pool.maxWorkers (Pool.processQueue p) = Pool.maxWorkers p.
Proof.
  unfold Pool.processQueue. destruct (Pool.taskQueue p); [done|].
  by destruct (_ >=? _).
Qed.

(** [processQueue] moves the head of the queue to the end of [started],
    or does nothing. *)
Lemma processQueue_order p :
  Pool.started (Pool.processQueue p) ++ Pool.taskQueue (Pool.processQueue p)
  = Pool.started p ++ Pool.taskQueue p.
Proof.
  unfold Pool.processQueue. destruct (Pool.taskQueue p) as [|t q] eqn:E.
  - by rewrite E.
  - destruct (_ >=? _); simpl; [by rewrite E|].
    by rewrite <- app_assoc.
Qed.

Lemma processQueue_settled p :
  Pool.settled (Pool.processQueue p) = Pool.settled p.
Proof.
  unfold Pool.processQueue. destruct (Pool.taskQueue p); [done|].
  by destruct (_ >=? _).
Qed.

(** The counter moves with the two logs: one up for a worker created. *)
Lemma processQueue_account p :
  Pool.activeWorkers (Pool.processQueue p)
    - Z.of_nat (length (Pool.started (Pool.processQueue p)))
  = Pool.activeWorkers p - Z.of_nat (length (Pool.started p)).
Proof.
  unfold Pool.processQueue. destruct (Pool.taskQueue p); [done|].
  destruct (_ >=? _); simpl; [done|].
  rewrite length_app. simpl. lia.
Qed.

Lemma processQueue_started_mono p :
  (length (Pool.started p) ≤ length (Pool.started (Pool.processQueue p)))%nat.
Proof.
  unfold Pool.processQueue. destruct (Pool.taskQueue p); [done|].
  destruct (_ >=? _); simpl; [done|]. rewrite length_app. simpl. lia.
Qed.

Lemma processQueue_bound p :
  Pool.activeWorkers p ≤ Pool.maxWorkers p →
  Pool.activeWorkers (Pool.processQueue p) ≤ Pool.maxWorkers (Pool.processQueue p).
Proof.
  unfold Pool.processQueue. destruct (Pool.taskQueue p); [done|].
  destruct (Z.geb_spec (Pool.activeWorkers p) (Pool.maxWorkers p)); simpl; lia.
Qed.

(** Queued tasks are started in submission order: at every moment the
    tasks started so far, followed by the tasks still queued, are the
    tasks submitted so far, in submission order. *)
Lemma pool_fifo evs p :
  Pool.started (Pool.run p evs) ++ Pool.taskQueue (Pool.run p evs)
  = Pool.started p ++ Pool.taskQueue p ++ Pool.submissions evs.
Proof.
  revert p. induction evs as [|ev evs IH]; intros p; simpl.
  - by rewrite app_nil_r.
  - rewrite IH. clear IH.
    destruct ev as [t|w r|w e|w code]; simpl.
    + unfold Pool.submit. rewrite app_assoc, processQueue_order. simpl.
      by rewrite <- !app_assoc.
    + case_decide; [|done]. unfold Pool.on_message.
      by rewrite app_assoc, processQueue_order, <- app_assoc.
    + case_decide; [|done]. unfold Pool.on_error.
      by rewrite app_assoc, processQueue_order, <- app_assoc.
    + case_decide; [|done]. unfold Pool.on_exit.
      destruct (code =? 0); [done|].
      by rewrite app_assoc, processQueue_order, <- app_assoc.
Qed.

Lemma pool_fifo_init evs maxW :
  let p := Pool.run (Pool.init maxW) evs in
  Pool.started p ++ Pool.taskQueue p = Pool.submissions evs.
Proof. simpl. by rewrite pool_fifo. Qed.

(** The counter never exceeds [maxWorkers]. *)
Lemma pool_upper_bound evs p :
  Pool.activeWorkers p ≤ Pool.maxWorkers p →
  Pool.activeWorkers (Pool.run p evs) ≤ Pool.maxWorkers (Pool.run p evs).
Proof.
  revert p. induction evs as [|ev evs IH]; intros p Hp; [done|].
  simpl. apply IH. clear IH.
  destruct ev as [t|w r|w e|w code]; simpl.
  - by apply processQueue_bound.
  - case_decide; [|done]. apply processQueue_bound. simpl. lia.
  - case_decide; [|done]. apply processQueue_bound. simpl. lia.
  - case_decide; [|done]. unfold Pool.on_exit.
    destruct (code =? 0); [done|]. apply processQueue_bound. simpl. lia.
Qed.

(** The counter is the number of workers created minus the number of
    handler runs that settled a task: every such run decrements once. *)
Lemma pool_account evs p :
  Pool.activeWorkers p
    = Z.of_nat (length (Pool.started p)) - Z.of_nat (length (Pool.settled p)) →
  Pool.activeWorkers (Pool.run p evs)
    = Z.of_nat (length (Pool.started (Pool.run p evs)))
      - Z.of_nat (length (Pool.settled (Pool.run p evs))).
Proof.
  revert p. induction evs as [|ev evs IH]; intros p Hp; [done|].
  simpl. apply IH. clear IH.
  assert (∀ q : Pool.State Task Res, Pool.activeWorkers q - Z.of_nat (length (Pool.started q))
               = - Z.of_nat (length (Pool.settled q)) →
               Pool.activeWorkers (Pool.processQueue q)
               = Z.of_nat (length (Pool.started (Pool.processQueue q)))
                 - Z.of_nat (length (Pool.settled (Pool.processQueue q)))) as Hq.
  { intros q Hq. pose proof (processQueue_account q).
    rewrite processQueue_settled. lia. }
  destruct ev as [t|w r|w e|w code]; simpl.
  - apply Hq. simpl. lia.
  - case_decide; [|done]. apply Hq. simpl. rewrite length_app. simpl. lia.
  - case_decide; [|done]. apply Hq. simpl. rewrite length_app. simpl. lia.
  - case_decide; [|done]. unfold Pool.on_exit.
    destruct (code =? 0); [done|].
    apply Hq. simpl. rewrite length_app. simpl. lia.
Qed.

(** Only workers that were created settle tasks. *)
Lemma pool_settled_started evs p :
  Forall (λ ws, ws.1 < length (Pool.started p))%nat (Pool.settled p) →
  Forall (λ ws, ws.1 < length (Pool.started (Pool.run p evs)))%nat
         (Pool.settled (Pool.run p evs)).
Proof.
  revert p. induction evs as [|ev evs IH]; intros p Hp; [done|].
  simpl. apply IH. clear IH.
  assert (∀ q : Pool.State Task Res,
             Forall (λ ws, ws.1 < length (Pool.started q))%nat (Pool.settled q) →
               Forall (λ ws, ws.1 < length (Pool.started (Pool.processQueue q)))%nat
                      (Pool.settled (Pool.processQueue q))) as Hq.
  { intros q Hq. rewrite processQueue_settled.
    eapply Forall_impl; [exact Hq|]. intros ws ?. simpl in *.
    pose proof (processQueue_started_mono q). lia. }
  destruct ev as [t|w r|w e|w code]; simpl.
  - by apply Hq.
  - case_decide; [|done]. apply Hq. simpl. apply Forall_app. split; [done|].
    by constructor.
  - case_decide; [|done]. apply Hq. simpl. apply Forall_app. split; [done|].
    by constructor.
  - case_decide; [|done]. unfold Pool.on_exit. destruct (code =? 0); [done|].
    apply Hq. simpl. apply Forall_app. split; [done|]. by constructor.
Qed.

(** When no worker settles its task twice (one of ['message'], ['error']
    and a non-zero ['exit'] per worker), the counter stays within
    [0 .. maxWorkers]. *)
Lemma pool_bounds_single_settle evs maxW :
  0 ≤ maxW →
  let p := Pool.run (Pool.init maxW) evs in
  NoDup (Pool.settled p).*1 →
  0 ≤ Pool.activeWorkers p ≤ Pool.maxWorkers p.
Proof.
  intros HmaxW p Hnd. split.
  - assert (Pool.activeWorkers p
            = Z.of_nat (length (Pool.started p))
              - Z.of_nat (length (Pool.settled p))) as ->
      by (by apply pool_account).
    assert (Forall (λ ws, ws.1 < length (Pool.started p))%nat (Pool.settled p))
      as Hlt by (apply pool_settled_started; constructor).
    assert ((Pool.settled p).*1 ⊆+ seq 0 (length (Pool.started p))) as Hsub.
    { apply NoDup_submseteq; [done|]. intros w Hw.
      apply list_elem_of_fmap in Hw as [ws [-> Hws]].
      rewrite Forall_forall in Hlt. apply elem_of_seq.
      specialize (Hlt ws Hws). lia. }
    apply submseteq_length in Hsub.
    rewrite length_fmap, length_seq in Hsub. lia.
  - apply pool_upper_bound. simpl. lia.
Qed.

End PoolFacts.

(** C8 (code bug): the ['error'] handler and the ['exit'] handler of the
    same worker both decrement [activeWorkers].  With [maxWorkers = 1], one
    task whose worker throws (Node emits ['error'], then ['exit'] with
    code 1) leaves [activeWorkers = -1]: the finished task was counted
    twice and the invariant [0 <= activeWorkers] is broken. *)
Theorem C8_error_then_exit_decrements_twice :
  let p := Pool.run (Pool.init 1)
             [Pool.Submit "task"; Pool.Error 0%nat "boom"; Pool.Exit 0%nat 1] in
  Pool.started p = ["task"] ∧
  Pool.settled p = [(0%nat, Pool.Reject "boom"); (0%nat, Pool.RejectExit 1)] ∧
  Pool.activeWorkers p = -1 ∧
  ¬ (0 ≤ Pool.activeWorkers p ≤ Pool.maxWorkers p).
Proof. vm_compute. repeat split; try reflexivity. intros [H _]. by apply H. Qed.

(** The same double count after a result: [worker.terminate()] in the
    ['message'] handler makes the worker exit with code 1. *)
Example pool_message_then_exit :
  Pool.activeWorkers
    (Pool.run (Pool.init 1)
       [Pool.Submit "task"; Pool.Message 0%nat "done"; Pool.Exit 0%nat 1]) = -1.
Proof. reflexivity. Qed.

(** With the counter at [-1], a pool of size 1 starts two tasks at once. *)
Example pool_overcommits :
  let p := Pool.run (Pool.init 1)
             [Pool.Submit "t0"; Pool.Error 0%nat "boom"; Pool.Exit 0%nat 1;
              Pool.Submit "t1"; Pool.Submit "t2"] in
  Pool.started p = ["t0"; "t1"; "t2"] ∧ Pool.taskQueue p = [] ∧
  Pool.terminated p = [0%nat].
Proof. vm_compute. done. Qed.

(** X26: [ThreadPool.executeParallel] queues the tasks in list order. *)
Lemma executeParallel_fifo {Task Res} (tasks : list Task) (p : Pool.State Task Res) :
  let q := ThreadPool.executeParallel tasks p in
  Pool.started q ++ Pool.taskQueue q
  = Pool.started p ++ Pool.taskQueue p ++ tasks.
Proof.
  unfold ThreadPool.executeParallel. simpl.
  revert p. induction tasks as [|t ts IH]; intros p; simpl.
  - by rewrite app_nil_r.
  - rewrite IH. unfold ThreadPool.executeTask, Pool.submit.
    rewrite app_assoc, processQueue_order. simpl. by rewrite <- !app_assoc.
Qed.

(** ** Chunking: [totalChunks], the slices and the round trip *)

(** [ceil_div a b] is the ceiling of [a / b]: the least [n] with
    [a <= n * b]. *)
Lemma ceil_div_bounds a b :
  0 ≤ a → 0 < b → (ceil_div a b - 1) * b < a ≤ ceil_div a b * b.
Proof.
  intros Ha Hb. unfold ceil_div.
  pose proof (Z.div_mod a b ltac:(lia)) as Hdm.
  pose proof (Z.mod_pos_bound a b Hb) as Hm.
  destruct (Z.eqb_spec (a mod b) 0) as [E|E]; nia.
Qed.

Lemma ceil_div_nonneg a b : 0 ≤ a → 0 < b → 0 ≤ ceil_div a b.
Proof. intros Ha Hb. pose proof (ceil_div_bounds a b Ha Hb). nia. Qed.

Lemma indices_S (k : nat) :
  indices (Z.of_nat (S k)) = indices (Z.of_nat k) ++ [Z.of_nat k].
Proof. unfold indices. by rewrite seqZ_S, Z.add_0_l. Qed.

(** The first [k] slices are contiguous and do not overlap: together they
    are the first [min (k * CHUNK_SIZE) size] bytes of the file. *)
Lemma slices_prefix (f : File) (k : nat) :
  Z.of_nat k ≤ ceil_div (file_size f) CHUNK_SIZE →
  concat (map (Worker.readNextChunk f) (indices (Z.of_nat k)))
  = take (Z.to_nat (Z.min (Z.of_nat k * CHUNK_SIZE) (file_size f))) (file_content f).
Proof.
  pose proof (ceil_div_bounds (file_size f) CHUNK_SIZE) as Hc.
  assert (0 ≤ file_size f) as Hs by (unfold file_size; lia).
  specialize (Hc Hs ltac:(done)).
  induction k as [|k IH]; intros Hk.
  - simpl. by rewrite Z.min_l by lia.
  - rewrite indices_S.
    rewrite map_app, concat_app, IH by lia. simpl. rewrite app_nil_r.
    unfold Worker.readNextChunk, file_slice.
    assert (Z.of_nat k * CHUNK_SIZE < file_size f) as Hlt by nia.
    rewrite (Z.min_l (Z.of_nat k * CHUNK_SIZE)) by lia.
    rewrite take_take_drop. f_equal. unfold CHUNK_SIZE in *. lia.
Qed.

(** All [totalChunks] slices together are the file. *)
Lemma slices_concat (f : File) :
  concat (map (Worker.readNextChunk f)
              (indices (ceil_div (file_size f) CHUNK_SIZE)))
  = file_content f.
Proof.
  pose proof (ceil_div_bounds (file_size f) CHUNK_SIZE) as Hc.
  assert (0 ≤ file_size f) as Hs by (unfold file_size; lia).
  specialize (Hc Hs ltac:(done)).
  pose proof (ceil_div_nonneg (file_size f) CHUNK_SIZE Hs ltac:(done)) as Hn.
  rewrite <- (Z2Nat.id (ceil_div _ _)) at 1 by done.
  rewrite slices_prefix by lia. rewrite Z2Nat.id by done.
  rewrite Z.min_r by lia. unfold file_size. rewrite Nat2Z.id.
  by rewrite firstn_all.
Qed.


Section WorkerRunFacts.
Variables (fileId : string) (file : File) (receiverId : string) (now1 now2 : Z).
Local Arguments Z.of_nat : simpl never.
Local Abbreviation W := (WorkerRun.at_chunk fileId file receiverId now1 now2).
Local Abbreviation n := (WorkerRun.total file).
Local Abbreviation tid := (WorkerRun.transferId fileId now1).

(** [processFile] on a fresh worker: the transfer object, a reader at
    chunk 0 and the metadata message. *)
Lemma processFile_init :
  Worker.processFile fileId file receiverId now1 now2 Worker.init
  = W 0 processing true [].
Proof.
  unfold Worker.processFile, Worker.readFileChunks. simpl.
  rewrite lookup_insert_eq. simpl. reflexivity.
Qed.

(** One [onload]: chunk [j] and the progress are posted; the reader goes
    on if [j + 1 < totalChunks] and finishes otherwise. *)
Lemma onload_chunk (j : nat) :
  Worker.onload 0 (W j processing true [])
  = if Z.of_nat j + 1 <? n
    then W (S j) processing true []
    else W (S j) complete false [WTransferComplete tid true].
Proof.
  unfold Worker.onload. simpl.
  destruct (_ <? _); unfold WorkerRun.at_chunk, Worker.set_reader, Worker.post,
    Worker.update_heap; simpl;
    rewrite indices_S, map_app, concat_app, Nat2Z.inj_succ, <- Z.add_1_r;
    simpl; rewrite ?app_nil_r, <- ?app_assoc; reflexivity.
Qed.

(** The reader terminates: with [m + 1] reads to go, any fuel above [m]
    reaches the final state. *)
Lemma drain_finishes (m j fuel : nat) :
  Z.of_nat j + Z.of_nat m + 1 = Z.max 1 n →
  (m < fuel)%nat →
  Worker.drain fuel 0 (W j processing true [])
  = W (j + m + 1) complete false [WTransferComplete tid true].
Proof.
  revert j fuel. induction m as [|m IH]; intros j fuel Hm Hf;
    (destruct fuel as [|fuel]; [lia|]); simpl; rewrite onload_chunk.
  - destruct (Z.ltb_spec (Z.of_nat j + 1) n); [lia|].
    replace (j + 0 + 1)%nat with (S j) by lia. by destruct fuel.
  - destruct (Z.ltb_spec (Z.of_nat j + 1) n); [|lia].
    rewrite IH by lia. f_equal. lia.
Qed.
End WorkerRunFacts.

(** The worker's whole output for a file: the metadata, then for each
    index of [0 .. max 1 totalChunks - 1] the chunk
    [bytes [i * CHUNK_SIZE, min ((i+1) * CHUNK_SIZE) size)] and a progress
    update, then [transfer-complete]. *)
Theorem worker_posts fileId file receiverId now1 now2 fuel :
  let n := WorkerRun.total file in
  let tid := WorkerRun.transferId fileId now1 in
  (Z.to_nat (Z.max 1 n) ≤ fuel)%nat →
  Worker.posted
    (Worker.drain fuel 0
       (Worker.processFile fileId file receiverId now1 now2 Worker.init))
  = WSendMetadata tid (WorkerRun.metadata fileId file now1 now2) receiverId
    :: concat (map (WorkerRun.chunk_posts fileId file receiverId now1)
                   (indices (Z.max 1 n)))
    ++ [WTransferComplete tid true].
Proof.
  intros n tid Hf. subst n tid. rewrite processFile_init.
  rewrite (drain_finishes _ _ _ _ _
             (Z.to_nat (Z.max 1 (WorkerRun.total file)) - 1) 0) by lia.
  simpl. do 5 f_equal. lia.
Qed.

Lemma ceil_div_pos a b : 0 < a → 0 < b → 1 ≤ ceil_div a b.
Proof. intros Ha Hb. pose proof (ceil_div_bounds a b ltac:(lia) Hb). nia. Qed.

(** For a file that is not empty the worker posts exactly [totalChunks]
    chunks, with the indices [0 .. totalChunks-1] in increasing order. *)
Corollary worker_posts_nonempty fileId file receiverId now1 now2 fuel :
  let n := WorkerRun.total file in
  let tid := WorkerRun.transferId fileId now1 in
  0 < file_size file →
  (Z.to_nat n ≤ fuel)%nat →
  Worker.posted
    (Worker.drain fuel 0
       (Worker.processFile fileId file receiverId now1 now2 Worker.init))
  = WSendMetadata tid (WorkerRun.metadata fileId file now1 now2) receiverId
    :: concat (map (WorkerRun.chunk_posts fileId file receiverId now1)
                   (indices n))
    ++ [WTransferComplete tid true].
Proof.
  intros n tid Hs Hf. subst n tid.
  pose proof (ceil_div_pos (file_size file) CHUNK_SIZE Hs ltac:(done)) as Hn.
  fold (WorkerRun.total file) in Hn.
  rewrite worker_posts by (rewrite Z.max_r by lia; done).
  by rewrite Z.max_r by lia.
Qed.

(** What the receiver holds after the chunks [0 .. j-1]. *)
Lemma stored_lookup file j i :
  stored file j !! i
  = if decide (0 ≤ i < Z.of_nat j) then Some (Worker.readNextChunk file i)
    else None.
Proof.
  induction j as [|j IH]; cbn [stored].
  - rewrite lookup_empty. by rewrite decide_False by lia.
  - destruct (decide (Z.of_nat j = i)) as [<-|Hne].
    + rewrite lookup_insert_eq. by rewrite decide_True by lia.
    + rewrite lookup_insert_ne, IH by done.
      destruct (decide (0 ≤ i < Z.of_nat j)).
      * by rewrite decide_True by lia.
      * by rewrite decide_False by lia.
Qed.

Lemma stored_size file j : size (stored file j) = j.
Proof.
  induction j as [|j IH]; cbn [stored]; [apply map_size_empty|].
  rewrite map_size_insert_None, IH; [done|].
  rewrite stored_lookup. by rewrite decide_False by lia.
Qed.

(** One chunk on a ['receiving'] record: it is stored, and the record is
    ['complete'] exactly when the map then has [totalChunks] entries. *)
Lemma chunk_step st transferId i c cm md sid rc mc :
  FT.transfers st !! transferId
    = Some (FT.mkTransfer md receiving (FT.ReceiverFields sid rc mc)) →
  FT.transfers (FT.handleIncomingFileChunk transferId i c cm st).1 !! transferId
  = Some (FT.mkTransfer md
            (if Z.of_nat (size (<[i := c]> rc)) =? md_totalChunks md
             then complete else receiving)
            (FT.ReceiverFields sid (<[i := c]> rc) mc)).
Proof.
  intros Ht. unfold FT.handleIncomingFileChunk. rewrite Ht. simpl.
  unfold FT.totalChunks. simpl.
  destruct (_ =? _); [unfold FT.assembleFile|];
    destruct (FT.transferWorker st); simpl;
    rewrite ?lookup_insert_eq; simpl; rewrite ?lookup_insert_eq; done.
Qed.

Lemma deliver_prefix st transferId cm file md sid (j : nat) :
  FT.transfers st !! transferId
    = Some (FT.mkTransfer md receiving (FT.ReceiverFields sid ∅ ∅)) →
  Z.of_nat j ≤ md_totalChunks md →
  FT.transfers (deliver_chunks transferId cm file (indices (Z.of_nat j)) st)
    !! transferId
  = Some (FT.mkTransfer md
            (if (0 <? Z.of_nat j) && (Z.of_nat j =? md_totalChunks md)
             then complete else receiving)
            (FT.ReceiverFields sid (stored file j) ∅)).
Proof.
  intros Ht. induction j as [|j IH]; intros Hj.
  - done.
  - rewrite indices_S. unfold deliver_chunks in *.
    rewrite fold_left_app. cbn [fold_left].
    erewrite chunk_step; cycle 1.
    { rewrite IH by lia.
      destruct (Z.eqb_spec (Z.of_nat j) (md_totalChunks md)); [lia|].
      by rewrite andb_false_r. }
    assert (size (<[Z.of_nat j := Worker.readNextChunk file (Z.of_nat j)]>
                    (stored file j)) = S j) as -> by apply (stored_size file (S j)).
    destruct (Z.ltb_spec 0 (Z.of_nat (S j))); [|lia]. done.
Qed.

(** X24: round trip on the receiving side: after the metadata and the chunks
    [0 .. totalChunks-1] of the file, in index order, concatenating
    [receivedChunks[0..totalChunks)] gives the file's bytes, and the record
    is ['complete'] when there was at least one chunk. *)
Theorem receiver_roundtrip st md sid cm file :
  md_totalChunks md = ceil_div (file_size file) CHUNK_SIZE →
  let transferId := md_transferId md in
  let st1 := (FT.handleIncomingFileMetadata md sid st).1 in
  let st2 := deliver_chunks transferId cm file (indices (md_totalChunks md)) st1 in
  ∃ t rc,
    FT.transfers st2 !! transferId = Some t ∧
    receivedChunks_of t = Some rc ∧
    reassemble (FT.totalChunks t) rc = file_content file ∧
    (0 < md_totalChunks md → FT.status t = complete).
Proof.
  intros Hn. cbn zeta.
  assert (0 ≤ file_size file) as Hs by (unfold file_size; lia).
  pose proof (ceil_div_nonneg _ CHUNK_SIZE Hs ltac:(done)) as Hn0.
  rewrite <- Hn in Hn0.
  destruct (Z_of_nat_complete _ Hn0) as [j Hj].
  eexists _, _. rewrite Hj at 1.
  rewrite (deliver_prefix _ _ _ _ md sid); cycle 1.
  { simpl. by rewrite lookup_insert_eq. }
  { lia. }
  split; [done|]. split; [done|]. split.
  - unfold reassemble, FT.totalChunks. simpl.
    rewrite <- (slices_concat file), <- Hn, Hj. f_equal.
    apply map_ext_in. intros i Hi. rewrite stored_lookup.
    apply list_elem_of_In, elem_of_seqZ in Hi.
    by rewrite decide_True by lia.
  - intros Hpos. simpl. rewrite <- Hj, Z.eqb_refl.
    by destruct (Z.ltb_spec 0 (md_totalChunks md)); [|lia].
Qed.

(** The length of chunk [i]. *)
Lemma readNextChunk_length f i :
  0 ≤ i →
  Z.of_nat (length (Worker.readNextChunk f i))
  = Z.max 0 (Z.min CHUNK_SIZE (file_size f - i * CHUNK_SIZE)).
Proof.
  intros Hi. unfold Worker.readNextChunk, file_slice, file_size.
  rewrite length_take, length_drop. unfold CHUNK_SIZE. lia.
Qed.

(** Scenario A of the spec: 150000 bytes make three chunks of 65536, 65536
    and 18928 bytes. *)
Example chunks_of_150000_bytes f :
  file_size f = 150000 →
  ceil_div (file_size f) CHUNK_SIZE = 3 ∧
  Z.of_nat (length (Worker.readNextChunk f 0)) = 65536 ∧
  Z.of_nat (length (Worker.readNextChunk f 1)) = 65536 ∧
  Z.of_nat (length (Worker.readNextChunk f 2)) = 18928.
Proof.
  intros Hs. rewrite !readNextChunk_length, Hs by lia. done.
Qed.

(** C1 (code bug): for an empty file [processFile] computes
    [totalChunks = Math.ceil(0 / 65536) = 0], but [readFileChunks] calls
    [readNextChunk()] once before it compares [chunkIndex] with
    [totalChunks]: the worker posts one (empty) chunk with index 0 and
    [isLast = false], and the manager dispatches it over UDP.  The payload
    is split into one slice, not into [totalChunks = 0] slices. *)
Theorem C1_empty_file_sends_one_chunk_of_zero :
  let s := Scenario.send_small_file Scenario.online Scenario.empty_file in
  ceil_div (file_size Scenario.empty_file) CHUNK_SIZE = 0 ∧
  (FT.totalChunks <$> FT.transfers (Sys.main s) !! "f-7") = Some 0 ∧
  WSendChunk "f-7" 0 [] false "bob" ∈ Worker.posted (Sys.worker s) ∧
  (FT.transfers (Sys.main s) !! "f-7" ≫= sentChunks_of) = Some {[0]} ∧
  sent_on UDP (Sys.main s)
  = [MsgFileChunk "f-7" 0 (Some []) false (mkChunkMeta "empty.txt" 0) "bob"].
Proof.
  vm_compute. repeat split; try reflexivity.
  apply list_elem_of_In. simpl. auto.
Qed.

(** The empty file, end to end: its single chunk is stored by the
    receiver, but no size test can succeed with [totalChunks = 0]; the
    receiver stays ['receiving'] and emits no ['file-received']. *)
Example empty_file_is_never_received :
  let s := Sys.run (Scenario.receiver_ready 0 0)
             (Sys.Main (Scenario.chunk_msg 0 0 []) :: Scenario.worker_round) in
  (FT.status <$> FT.transfers (Sys.main s) !! "t") = Some receiving ∧
  (FT.transfers (Sys.main s) !! "t" ≫= receivedChunks_of) = Some {[0 := []]} ∧
  terminal_events "t" (Sys.main s) = [].
Proof. vm_compute. repeat split; reflexivity. Qed.

(** ** The manager's handlers, field by field *)

(** Clearing the retry timers touches only the pending timers. *)
Lemma clearRetryTimeouts_frame r st :
  let st' := FT.clearRetryTimeouts r st in
  FT.transfers st' = FT.transfers st ∧ FT.initialized st' = FT.initialized st ∧
  FT.transferWorker st' = FT.transferWorker st ∧ FT.net st' = FT.net st ∧
  FT.nextTimer st' = FT.nextTimer st ∧ FT.emitted st' = FT.emitted st ∧
  FT.toWorker st' = FT.toWorker st.
Proof.
  unfold FT.clearRetryTimeouts. simpl.
  induction ((map_to_list r).*2) as [|x l IH]; simpl; [done|].
  case_decide; [|done]. simpl. done.
Qed.

Lemma clearRetryTimeouts_transfers r st :
  FT.transfers (FT.clearRetryTimeouts r st) = FT.transfers st.
Proof. apply clearRetryTimeouts_frame. Qed.

Lemma clearRetryTimeouts_net r st :
  FT.net (FT.clearRetryTimeouts r st) = FT.net st.
Proof. apply clearRetryTimeouts_frame. Qed.

Lemma clearRetryTimeouts_emitted r st :
  FT.emitted (FT.clearRetryTimeouts r st) = FT.emitted st.
Proof. apply clearRetryTimeouts_frame. Qed.

Lemma clearRetryTimeouts_transferWorker r st :
  FT.transferWorker (FT.clearRetryTimeouts r st) = FT.transferWorker st.
Proof. apply clearRetryTimeouts_frame. Qed.

Lemma clearRetryTimeouts_toWorker r st :
  FT.toWorker (FT.clearRetryTimeouts r st) = FT.toWorker st.
Proof. apply clearRetryTimeouts_frame. Qed.

(** Case analysis on every test of a handler body. *)
Ltac ft_cases :=
  repeat case_match; simpl in *;
  unfold FT.ok, FT.throw, FT.setTimeout in *; simplify_eq; simpl in *;
  rewrite ?clearRetryTimeouts_transfers, ?clearRetryTimeouts_net,
    ?clearRetryTimeouts_emitted.

(** ** Completion *)

(** C2 (code bug): a one-byte file is sent and no acknowledgement ever
    arrives.  When the worker has read the last chunk it posts
    [transfer-complete], and the manager turns that into a ['complete']
    event with [success: true], although [acknowledgedChunks] is empty and
    the record is still ['sending']. *)
Theorem C2_complete_event_without_acknowledgement :
  let st := Sys.main (Scenario.send_small_file Scenario.online
                        Scenario.one_byte_file) in
  FT.emitted st = [EvProgress "f-7" (mkProgress 1 1); EvComplete "f-7" true] ∧
  (FT.totalChunks <$> FT.transfers st !! "f-7") = Some 1 ∧
  (FT.transfers st !! "f-7" ≫= acknowledgedChunks_of) = Some ∅ ∧
  (FT.status <$> FT.transfers st !! "f-7") = Some sending.
Proof. vm_compute. repeat split; reflexivity. Qed.

(** The size test of [handleChunkAcknowledgment] does not look at which
    indices were acknowledged: three acknowledgements for indices 5, 6, 7
    complete a transfer of three chunks. *)
Example ack_of_foreign_indices_completes :
  let st := FT.run (FT.init Scenario.online)
      [FT.CallInit true;
       FT.FromWorker (WSendMetadata "t" (Scenario.metadata_of 150000 3) "bob");
       FT.FromNetwork (InFileChunkAck "t" 5 "received");
       FT.FromNetwork (InFileChunkAck "t" 6 "received");
       FT.FromNetwork (InFileChunkAck "t" 7 "received")] in
  (FT.status <$> FT.transfers st !! "t") = Some complete ∧
  FT.emitted st = [EvComplete "t" true] ∧
  (FT.transfers st !! "t" ≫= acknowledgedChunks_of) = Some {[5; 6; 7]}.
Proof. vm_compute. repeat split; reflexivity. Qed.

(** The size test of the code agrees with "every index is present" as long
    as only indices of [0 .. n-1] are in the set. *)
Lemma size_test_is_membership (X : gset Z) (n : Z) :
  0 ≤ n →
  (∀ i, i ∈ X → 0 ≤ i < n) →
  Z.of_nat (size X) = n ↔ (∀ i, 0 ≤ i < n → i ∈ X).
Proof.
  intros Hn HX.
  assert (size (list_to_set (indices n) : gset Z) = Z.to_nat n) as Hfull.
  { rewrite size_list_to_set by apply NoDup_seqZ.
    unfold indices. rewrite length_seqZ. done. }
  assert (X ⊆ list_to_set (indices n)) as Hsub.
  { intros i Hi. apply elem_of_list_to_set, elem_of_seqZ. specialize (HX i Hi). lia. }
  split.
  - intros Hsize i Hi.
    assert (X = list_to_set (indices n)) as ->.
    { apply set_subseteq_size_eq; [done|]. rewrite Hfull. lia. }
    apply elem_of_list_to_set, elem_of_seqZ. lia.
  - intros Hall.
    assert (X = list_to_set (indices n)) as ->.
    { apply set_eq. intros i. split; [apply Hsub|].
      intros Hi. apply elem_of_list_to_set, elem_of_seqZ in Hi. apply Hall. lia. }
    rewrite Hfull. lia.
Qed.

(** What decides completion on the sending side: the size of
    [acknowledgedChunks] after the index was added. *)
Lemma ack_completes_iff_size st transferId idx t rid sent acked retries :
  FT.transfers st !! transferId = Some t →
  FT.status t = sending →
  FT.fields t = FT.SenderFields rid sent acked retries →
  let st' := (FT.handleChunkAcknowledgment transferId idx "received" st).1 in
  (FT.status <$> FT.transfers st' !! transferId) = Some complete
  ↔ Z.of_nat (size ({[idx]} ∪ acked)) = FT.totalChunks t.
Proof.
  intros Ht Hs Hf. unfold FT.handleChunkAcknowledgment. rewrite Ht.
  ft_cases; rewrite lookup_insert_eq; simpl;
    match goal with
    | H : (_ =? _) = true |- _ => apply Z.eqb_eq in H
    | H : (_ =? _) = false |- _ => apply Z.eqb_neq in H
    end; split; try done; try congruence.
  all: intros [= E]; rewrite Hs in E; discriminate.
Qed.

(** C3 (code bug): the receiver of a transfer of three chunks gets the
    chunk with index 2 first.  The worker's [processChunk] sees
    [chunkIndex === metadata.totalChunks - 1] and posts
    [receive-complete]; [completeFileReceive] then sets the status to
    ['complete'] and emits ['file-received'] while indices 0 and 1 are
    missing. *)
Theorem C3_last_index_first_completes :
  let s := Sys.run (Scenario.receiver_ready 150000 3)
             (Sys.Main (Scenario.chunk_msg 2 3 [Byte.x01])
              :: Scenario.worker_round) in
  (FT.status <$> FT.transfers (Sys.main s) !! "t") = Some complete ∧
  (FT.transfers (Sys.main s) !! "t" ≫= receivedChunks_of)
  = Some {[2 := [Byte.x01]]} ∧
  FT.emitted (Sys.main s)
  = [EvIncomingFile "t" "a.txt" 150000 "text/plain" "alice";
     EvReceiveProgress "t" (mkProgress 3 3);
     EvFileReceived "t" "a.txt" None None].
Proof. vm_compute. repeat split; reflexivity. Qed.

(** Chunks that arrive after that are dropped: the record is no longer
    ['receiving']. *)
Example chunks_after_early_completion_are_dropped :
  let s := Sys.run (Scenario.receiver_ready 150000 3)
             (Sys.Main (Scenario.chunk_msg 2 3 [Byte.x01])
              :: Scenario.worker_round
              ++ [Sys.Main (Scenario.chunk_msg 0 3 [Byte.x02])]) in
  (FT.transfers (Sys.main s) !! "t" ≫= receivedChunks_of)
  = Some {[2 := [Byte.x01]]}.
Proof. vm_compute. reflexivity. Qed.

(** C6 (code bug): one transfer, two terminal events.  On the receiving
    side the only chunk of a transfer arrives: [assembleFile] emits
    ['file-received'], and when the worker has handled the same chunk
    [completeFileReceive] emits it again.  On the sending side the worker's
    [transfer-complete] and the last acknowledgement each emit
    ['complete']. *)
Theorem C6_two_terminal_events_for_one_transfer :
  (let s := Sys.run (Scenario.receiver_ready 1 1)
              (Sys.Main (Scenario.chunk_msg 0 1 [Byte.x01])
               :: Scenario.worker_round) in
   terminal_events "t" (Sys.main s)
   = [EvFileReceived "t" "a.txt" (Some "text/plain") (Some 1);
      EvFileReceived "t" "a.txt" None None]) ∧
  (let s := Sys.run (Scenario.send_small_file Scenario.online
                       Scenario.one_byte_file)
              [Sys.Main (FT.FromNetwork (InFileChunkAck "f-7" 0 "received"))] in
   terminal_events "f-7" (Sys.main s)
   = [EvComplete "f-7" true; EvComplete "f-7" true]).
Proof. vm_compute. split; reflexivity. Qed.

(** ** [acknowledgedChunks] and [sentChunks] *)

Lemma ack_ok_set_status s t : ack_ok t → ack_ok (FT.set_status s t).
Proof. done. Qed.

Ltac inv_tac :=
  repeat match goal with
    | |- map_Forall _ (<[_:=_]> _) => apply map_Forall_insert_2
    | |- map_Forall _ (delete _ _) => apply map_Forall_delete
    | H : map_Forall _ ?m |- map_Forall _ ?m => exact H
    | |- ack_ok (FT.set_status _ _) => apply ack_ok_set_status
    | H : map_Forall _ ?m, L : ?m !! _ = Some ?t |- ack_ok ?t => exact (H _ _ L)
    | L : ?m !! _ = Some ?t |- ack_ok ?t =>
        cut (map_Forall (λ _ t, ack_ok t) m); [intros HH; exact (HH _ _ L)|]
    end.

Ltac use_record :=
  try match goal with
  | H : map_Forall _ ?m, L : ?m !! _ = Some ?t, F : FT.fields ?t = _ |- _ =>
      let HP := fresh "HP" in
      pose proof (H _ _ L) as HP; unfold ack_ok in HP; rewrite F in HP
  end.

(** C4 (counterexample): a sending record has dispatched no chunk; an
    acknowledgement for index 5 arrives.  [handleChunkAcknowledgment] adds
    5 to [acknowledgedChunks] without looking at [sentChunks], and
    [acknowledgedChunks ⊆ sentChunks] no longer holds. *)
Lemma C4_ack_of_undispatched_index_is_added :
  let st := Sys.main (Scenario.send_metadata_only Scenario.online
                        Scenario.one_byte_file) in
  let st' := FT.step st (FT.FromNetwork (InFileChunkAck "f-7" 5 "received")) in
  ack_subset_sent st ∧
  (FT.transfers st !! "f-7" ≫= sentChunks_of) = Some ∅ ∧
  (FT.transfers st' !! "f-7" ≫= sentChunks_of) = Some ∅ ∧
  (FT.transfers st' !! "f-7" ≫= acknowledgedChunks_of) = Some {[5]} ∧
  ¬ ack_subset_sent st'.
Proof.
  repeat split.
  - apply (bool_decide_unpack _). by vm_compute.
  - apply (bool_decide_unpack _). by vm_compute.
Qed.

(** C4 (amended): every operation of the manager preserves
    [acknowledgedChunks ⊆ sentChunks] on all records, provided that an
    acknowledgement it processes is for an index that was dispatched:
    dispatch and retry never touch [acknowledgedChunks] and never shrink
    [sentChunks]; [handleChunkAcknowledgment] adds the acknowledged index
    whatever [sentChunks] holds. *)
Theorem C4_ack_subset_sent_preserved st i :
  ack_subset_sent st →
  (∀ transferId idx s,
      i = FT.FromNetwork (InFileChunkAck transferId idx s) →
      dispatched st transferId idx) →
  ack_subset_sent (FT.step st i).
Proof.
  unfold ack_subset_sent, FT.step. intros H Hd.
  destruct i as [ww|ww fid f rid|tid|m|m|h|b]; simpl.
  - unfold FT.init_. by destruct (FT.initialized st).
  - unfold FT.sendFile, FT.init_. repeat case_match; simpl; done.
  - unfold FT.cancelTransfer. ft_cases; inv_tac.
  - destruct m; simpl;
      unfold FT.sendFileMetadata, FT.sendFileChunk, FT.completeFileReceive.
    all: ft_cases; inv_tac; use_record; unfold ack_ok; simpl; try done;
      set_solver.
  - destruct (FT.initialized st); [|done].
    destruct m as [md sid|tid idx c cm|tid idx s|tid|]; simpl;
      unfold FT.handleIncomingFileMetadata, FT.handleIncomingFileChunk,
        FT.handleChunkAcknowledgment, FT.cancelTransfer, FT.assembleFile.
    1,2,4,5: ft_cases; inv_tac; use_record; unfold ack_ok; simpl; try done.
    specialize (Hd _ _ _ eq_refl). unfold dispatched in Hd.
    ft_cases; inv_tac; use_record; unfold ack_ok; simpl; try done; set_solver.
  - unfold FT.fireTimer.
    destruct (FT.timers st !! h) as [[tid idx rid|tid]|]; simpl; [| |done].
    + unfold FT.retryChunk.
      ft_cases; inv_tac; use_record; unfold ack_ok; simpl; try done.
    + by apply map_Forall_delete.
  - done.
Qed.

(** The invariant is kept when the only chunk that was dispatched is
    acknowledged. *)
Lemma C4_ack_subset_sent_preserved_witness :
  let st := Sys.main (Scenario.send_small_file Scenario.online
                        Scenario.one_byte_file) in
  ack_subset_sent
    (FT.step st (FT.FromNetwork (InFileChunkAck "f-7" 0 "received"))).
Proof.
  apply C4_ack_subset_sent_preserved.
  - apply (bool_decide_unpack _). by vm_compute.
  - intros tid idx s Heq. injection Heq as <- <- <-.
    apply (bool_decide_unpack _). by vm_compute.
Defined.

(** What an acknowledgement does to a sending record, whatever the index:
    the index joins [acknowledgedChunks], [sentChunks] stays. *)
Lemma ack_adds_any_index st transferId idx t rid sent acked retries :
  FT.transfers st !! transferId = Some t →
  FT.status t = sending →
  FT.fields t = FT.SenderFields rid sent acked retries →
  let st' := (FT.handleChunkAcknowledgment transferId idx "received" st).1 in
  (FT.transfers st' !! transferId ≫= acknowledgedChunks_of)
    = Some ({[idx]} ∪ acked) ∧
  (FT.transfers st' !! transferId ≫= sentChunks_of) = Some sent.
Proof.
  intros Ht Hs Hf. unfold FT.handleChunkAcknowledgment. rewrite Ht.
  ft_cases; rewrite lookup_insert_eq; done.
Qed.

(** ** The retry path *)

(** [sendFileChunk] on a ['sending'] record, while connected: the index
    joins [sentChunks], the chunk goes out over UDP and a retry timer with
    count 0 is armed for the index. *)
Lemma sendFileChunk_dispatches st transferId idx chunk isLast receiverId
    t rid sent acked retries :
  FT.transfers st !! transferId = Some t →
  FT.status t = sending →
  FT.fields t = FT.SenderFields rid sent acked retries →
  Net.connected (FT.net st) = true →
  let r := FT.sendFileChunk transferId idx chunk isLast receiverId st in
  r.2 = None ∧
  Net.sent (FT.net r.1)
    = Net.sent (FT.net st)
      ++ [(UDP, MsgFileChunk transferId idx (Some chunk) isLast
                  (mkChunkMeta (md_fileName (FT.meta t)) (FT.totalChunks t))
                  receiverId)] ∧
  FT.transfers r.1 !! transferId
    = Some (FT.mkTransfer (FT.meta t) sending
              (FT.SenderFields rid ({[idx]} ∪ sent) acked
                 (<[idx := FT.mkRetryInfo 0 (FT.nextTimer st)]> retries))) ∧
  FT.timers r.1
    = <[FT.nextTimer st := FT.RetryCb transferId idx receiverId]> (FT.timers st).
Proof.
  intros Ht Hs Hf Hc. unfold FT.sendFileChunk. rewrite Ht, Hf.
  rewrite decide_False by (by rewrite Hs; intros []).
  simpl. unfold FT.sendUdpMessage, Net.sendUdpMessage. simpl. rewrite Hc. simpl.
  rewrite lookup_insert_eq, Hs. done.
Qed.

(** C5 (code bug): chunk 0 of a one-chunk transfer is dispatched and never
    acknowledged.  When its retry timer (handle 1) fires, [retryChunk]
    increments the count and then evaluates [transfer.chunks[chunkIndex]];
    no record has a [chunks] property, so it throws a [TypeError] before
    any send: nothing is resent on either channel and no timer is armed
    again. *)
Theorem C5_first_retry_throws_and_resends_nothing :
  let st := Sys.main (Scenario.send_small_file Scenario.online
                        Scenario.one_byte_file) in
  let r := FT.handle (FT.TimerFires 1) st in
  FT.timers st = {[1%nat := FT.RetryCb "f-7" 0 "bob"]} ∧
  r.2 = Some TypeError ∧
  Net.sent (FT.net r.1) = Net.sent (FT.net st) ∧
  FT.timers r.1 = ∅ ∧
  (FT.transfers r.1 !! "f-7" ≫= retries_of)
  = Some {[0 := FT.mkRetryInfo 1 1]}.
Proof. vm_compute. repeat split; reflexivity. Qed.

(** Without [transfer.chunks], [retryChunk] sends nothing and arms no
    timer, whatever the retry count. *)
Lemma retryChunk_chunkless_sends_nothing st transferId idx receiverId :
  sending_chunkless st →
  let r := FT.retryChunk transferId idx receiverId st in
  Net.sent (FT.net r.1) = Net.sent (FT.net st) ∧
  FT.timers r.1 = FT.timers st ∧
  FT.nextTimer r.1 = FT.nextTimer st.
Proof.
  intros Hinv. unfold FT.retryChunk.
  destruct (FT.transfers st !! transferId) as [t|] eqn:Ht; [|done].
  pose proof (Hinv _ _ Ht) as Hc. simpl in Hc.
  ft_cases; try done.
  all: exfalso;
    assert (FT.status t = sending) as Hs
      by (destruct (decide (FT.status t = sending)); [done|contradiction]);
    specialize (Hc Hs); discriminate.
Qed.

Ltac chunkless_close :=
  try done; simpl; intros; try discriminate;
  try match goal with
      | Hl : ∀ m k t, map_Forall _ m → _, H : map_Forall _ ?m,
        L : ?m !! _ = Some ?t |- md_chunks (FT.meta ?t) = None =>
          apply (Hl _ _ _ H L); done
      | Hl : ∀ m k t, map_Forall _ m → _, H : map_Forall _ ?m,
        L : ?m !! _ = Some ?t |- FT.chunks _ = None =>
          apply (Hl _ _ _ H L); done
      end.

(** No operation of the manager gives a ['sending'] record a [chunks]
    property. *)
Lemma sending_chunkless_step st i :
  (∀ m, i = FT.FromWorker m → worker_made m) →
  sending_chunkless st → sending_chunkless (FT.step st i).
Proof.
  unfold sending_chunkless, FT.step. intros Hw H.
  assert (∀ (m : gmap string FT.Transfer) k t,
             map_Forall (λ _ t, FT.status t = sending → FT.chunks t = None) m →
             m !! k = Some t → FT.status t = sending → FT.chunks t = None) as Hl
    by (intros m k t Hm Hk; exact (Hm k t Hk)).
  destruct i as [ww|ww fid f rid|tid|m|m|h|b]; simpl.
  - unfold FT.init_. by destruct (FT.initialized st).
  - unfold FT.sendFile, FT.init_. repeat case_match; simpl; done.
  - unfold FT.cancelTransfer. ft_cases;
      repeat (apply map_Forall_insert_2; [done|]); done.
  - specialize (Hw _ eq_refl).
    destruct m; simpl;
      unfold FT.sendFileMetadata, FT.sendFileChunk, FT.completeFileReceive.
    all: ft_cases; repeat (apply map_Forall_insert_2; [chunkless_close|]);
      chunkless_close.
  - destruct (FT.initialized st); [|done].
    destruct m as [md sid|tid idx c cm|tid idx s|tid|]; simpl;
      unfold FT.handleIncomingFileMetadata, FT.handleIncomingFileChunk,
        FT.handleChunkAcknowledgment, FT.cancelTransfer, FT.assembleFile.
    all: ft_cases; repeat (apply map_Forall_insert_2; [chunkless_close|]);
      chunkless_close.
  - unfold FT.fireTimer.
    destruct (FT.timers st !! h) as [[tid idx rid|tid]|]; simpl; [| |done].
    + unfold FT.retryChunk.
      ft_cases; repeat (apply map_Forall_insert_2; [chunkless_close|]);
        chunkless_close.
    + by apply map_Forall_delete.
  - done.
Qed.

(** The worker only posts metadata without [chunks]. *)
Lemma worker_onmessage_made m now1 now2 w :
  Forall worker_made (Worker.posted w) →
  Forall worker_made (Worker.posted (Worker.onmessage m now1 now2 w)).
Proof.
  intros H. destruct m; simpl.
  - unfold Worker.processFile, Worker.readFileChunks. simpl.
    repeat case_match; simpl; apply Forall_app; split; try done;
      by repeat constructor.
  - unfold Worker.processChunk. repeat case_match; simpl;
      repeat (apply Forall_app; split; try done); by repeat constructor.
  - unfold Worker.abortTransfer. repeat case_match; simpl; try done.
    apply Forall_app; split; try done. by repeat constructor.
Qed.

Lemma worker_onload_made k w :
  Forall worker_made (Worker.posted w) →
  Forall worker_made (Worker.posted (Worker.onload k w)).
Proof.
  intros H. unfold Worker.onload. repeat case_match; simpl; try done;
    repeat (apply Forall_app; split; try done); by repeat constructor.
Qed.

Lemma worker_onerror_made k w :
  Forall worker_made (Worker.posted w) →
  Forall worker_made (Worker.posted (Worker.onerror k w)).
Proof.
  intros H. unfold Worker.onerror. repeat case_match; simpl; try done;
    repeat (apply Forall_app; split; try done); by repeat constructor.
Qed.

Lemma sys_step_chunkless s x :
  external x →
  sending_chunkless (Sys.main s) ∧ Forall worker_made (Worker.posted (Sys.worker s)) →
  sending_chunkless (Sys.main (Sys.step s x)) ∧
  Forall worker_made (Worker.posted (Sys.worker (Sys.step s x))).
Proof.
  intros Hx [Hm Hw]. destruct x as [i|now1 now2|k|k|]; simpl.
  - split; [|done]. apply sending_chunkless_step; [|done].
    intros m ->. destruct Hx.
  - destruct (_ !! _); [|done]. simpl. split; [done|].
    by apply worker_onmessage_made.
  - split; [done|]. by apply worker_onload_made.
  - split; [done|]. by apply worker_onerror_made.
  - destruct (Worker.posted (Sys.worker s) !! Sys.delivered s) as [m|] eqn:E;
      [|done].
    simpl. split; [|done]. apply sending_chunkless_step; [|done].
    intros m' [= <-]. rewrite Forall_forall in Hw. apply Hw.
    by eapply list_elem_of_lookup_2.
Qed.

(** In every run of the manager with its worker, no ['sending'] record
    ever has a [chunks] property. *)
Theorem sys_sending_chunkless n xs :
  Forall external xs →
  sending_chunkless (Sys.main (Sys.run (Sys.init n) xs)).
Proof.
  intros Hxs.
  assert (∀ s, sending_chunkless (Sys.main s) ∧
               Forall worker_made (Worker.posted (Sys.worker s)) →
               sending_chunkless (Sys.main (Sys.run s xs)) ∧
               Forall worker_made (Worker.posted (Sys.worker (Sys.run s xs))))
    as Hrun.
  { induction Hxs as [|x xs Hx Hxs IH]; intros s Hs; [done|].
    simpl. apply IH. by apply sys_step_chunkless. }
  apply Hrun. split; [|constructor].
  unfold sending_chunkless. simpl. apply map_Forall_empty.
Qed.

(** X25: hence no timer that fires ever puts a message on the network: the
    retry path resends nothing, on neither channel, in any run. *)
Theorem no_timer_ever_resends n xs h :
  Forall external xs →
  let st := Sys.main (Sys.run (Sys.init n) xs) in
  Net.sent (FT.net (FT.step st (FT.TimerFires h))) = Net.sent (FT.net st) ∧
  FT.timers (FT.step st (FT.TimerFires h)) = delete h (FT.timers st).
Proof.
  intros Hxs st. pose proof (sys_sending_chunkless n xs Hxs) as Hinv.
  fold st in Hinv. unfold FT.step. simpl. unfold FT.fireTimer.
  destruct (FT.timers st !! h) as [[tid idx rid|tid]|] eqn:E; simpl.
  - pose proof (retryChunk_chunkless_sends_nothing (FT.clearTimeout h st)
                  tid idx rid) as Hr.
    simpl in Hr. destruct (Hr Hinv) as (? & ? & _). done.
  - done.
  - split; [done|]. symmetry. by apply delete_id.
Qed.

(** The counting of [retryChunk] is as claimed; only the chunk bytes are
    missing.  If a sending record did carry [chunks] (here through a
    metadata object that has the property), four timer firings would give
    three UDP resends, then one TCP resend and no further timer. *)
Example retry_sequence_if_chunks_were_stored :
  let md := mkMetadata "t" "f" "a.txt" "text/plain" 1 1 8 (Some [[Byte.x01]]) in
  let st := FT.run (FT.init Scenario.online)
      [FT.CallInit true;
       FT.FromWorker (WSendMetadata "t" md "bob");
       FT.FromWorker (WSendChunk "t" 0 [Byte.x01] true "bob");
       FT.TimerFires 1; FT.TimerFires 2; FT.TimerFires 3; FT.TimerFires 4] in
  let resend := MsgFileChunk "t" 0 (Some [Byte.x01]) true
                  (mkChunkMeta "a.txt" 1) "bob" in
  (Net.sent (FT.net st)).*1 = [TCP; UDP; UDP; UDP; UDP; TCP] ∧
  drop 2 (Net.sent (FT.net st))
    = [(UDP, resend); (UDP, resend); (UDP, resend); (TCP, resend)] ∧
  FT.timers st = ∅.
Proof. vm_compute. repeat split; reflexivity. Qed.

(** ** Cancellation *)

(** C7 (code bug): [cancelTransfer] only tests that the record exists.  A
    first call on a sending transfer sends the cancellation, clears the
    retry timer and emits ['cancelled'] once; a second call (the record
    stays in the map for five seconds) posts [abort-transfer] to the worker
    again, arms another removal timer and emits ['cancelled'] again; and
    a call on a completed transfer turns its status into ['cancelled']. *)
Theorem C7_second_cancel_emits_again :
  let st0 := Sys.main (Scenario.send_small_file Scenario.online
                         Scenario.one_byte_file) in
  let st1 := FT.step st0 (FT.CallCancelTransfer "f-7") in
  let st2 := FT.step st1 (FT.CallCancelTransfer "f-7") in
  let done_ := FT.step st0 (FT.FromNetwork (InFileChunkAck "f-7" 0 "received")) in
  (sent_on TCP st1 = sent_on TCP st0 ++ [MsgFileTransferCancel "f-7" (Some "bob")] ∧
   FT.timers st1 = {[2%nat := FT.DeleteCb "f-7"]} ∧
   terminal_events "f-7" st1 = [EvComplete "f-7" true; EvCancelled "f-7"]) ∧
  (st2 ≠ st1 ∧
   FT.emitted st2 = FT.emitted st1 ++ [EvCancelled "f-7"] ∧
   FT.toWorker st2 = FT.toWorker st1 ++ [AbortTransfer "f-7"] ∧
   FT.timers st2 = {[2%nat := FT.DeleteCb "f-7"; 3%nat := FT.DeleteCb "f-7"]}) ∧
  ((FT.status <$> FT.transfers done_ !! "f-7") = Some complete ∧
   (FT.status <$> FT.transfers (FT.step done_ (FT.CallCancelTransfer "f-7")) !! "f-7")
   = Some cancelled ∧
   FT.emitted (FT.step done_ (FT.CallCancelTransfer "f-7"))
   = FT.emitted done_ ++ [EvCancelled "f-7"]).
Proof.
  vm_compute. repeat split; try reflexivity.
  intros H. discriminate H.
Qed.

(** The second call arises in the protocol itself: a receiver that gets
    the cancellation message cancels its record and sends a cancellation
    message back, and that message makes the sender call [cancelTransfer]
    again on the record it has just cancelled. *)
Example cancellation_is_echoed :
  (let s := Sys.run (Scenario.receiver_ready 1 1)
              [Sys.Main (FT.FromNetwork (InFileTransferCancel "t"))] in
   last (Net.sent (FT.net (Sys.main s)))
   = Some (TCP, MsgFileTransferCancel "t" (Some "alice"))) ∧
  (let st := FT.run (Sys.main (Scenario.send_small_file Scenario.online
                                 Scenario.one_byte_file))
               [FT.CallCancelTransfer "f-7";
                FT.FromNetwork (InFileTransferCancel "f-7")] in
   terminal_events "f-7" st
   = [EvComplete "f-7" true; EvCancelled "f-7"; EvCancelled "f-7"]).
Proof. vm_compute. split; reflexivity. Qed.

(** Every timer of the record's [retries] is cleared. *)
Lemma clearRetryTimeouts_clears r st i ri :
  r !! i = Some ri → FT.timeout ri ≠ 0%nat →
  FT.timers (FT.clearRetryTimeouts r st) !! FT.timeout ri = None.
Proof.
  intros Hi Hne. unfold FT.clearRetryTimeouts.
  assert (ri ∈ (map_to_list r).*2) as Hin.
  { apply list_elem_of_fmap. exists (i, ri). split; [done|].
    by apply elem_of_map_to_list. }
  induction ((map_to_list r).*2) as [|x l IH]; [by apply elem_of_nil in Hin|].
  simpl. apply elem_of_cons in Hin as [<-|Hin].
  - rewrite decide_True by done. simpl. apply lookup_delete_eq.
  - case_decide; [|by apply IH]. simpl.
    rewrite lookup_delete. case_decide; [done|by apply IH].
Qed.

(** The only call of [cancelTransfer] that does nothing is the one for an
    unknown [transferId]. *)
Lemma cancel_unknown_is_noop st transferId :
  FT.transfers st !! transferId = None →
  FT.cancelTransfer transferId st = (st, None).
Proof. intros H. unfold FT.cancelTransfer. by rewrite H. Qed.

(** A first cancellation of a sending transfer, while connected: one
    cancellation message to the peer, every retry timer of the record
    cleared, status ['cancelled'], one ['cancelled'] event. *)
Lemma cancel_of_sending st transferId t rid sent acked retries :
  FT.transfers st !! transferId = Some t →
  FT.status t = sending →
  FT.fields t = FT.SenderFields rid sent acked retries →
  Net.connected (FT.net st) = true →
  let r := FT.cancelTransfer transferId st in
  r.2 = None ∧
  Net.sent (FT.net r.1)
    = Net.sent (FT.net st) ++ [(TCP, MsgFileTransferCancel transferId (Some rid))] ∧
  FT.emitted r.1 = FT.emitted st ++ [EvCancelled transferId] ∧
  (FT.status <$> FT.transfers r.1 !! transferId) = Some cancelled ∧
  (∀ i ri, retries !! i = Some ri → FT.timeout ri ≠ 0%nat →
           FT.timeout ri ≠ FT.nextTimer st →
           FT.timers r.1 !! FT.timeout ri = None).
Proof.
  intros Ht Hs Hf Hc. unfold FT.cancelTransfer. rewrite Ht, Hs, Hf. simpl.
  unfold FT.sendTcpMessage, Net.sendTcpMessage.
  rewrite clearRetryTimeouts_net, Hc. simpl.
  pose proof (clearRetryTimeouts_frame retries st) as (_ & _ & _ & _ & Hn & _).
  destruct (FT.transferWorker _); simpl;
    rewrite ?clearRetryTimeouts_emitted, ?clearRetryTimeouts_transfers,
      lookup_insert_eq; (repeat split; try done);
    intros i ri Hi Hne Hnx; simpl in Hn; rewrite Hn;
    rewrite lookup_insert_ne by done;
    by eapply clearRetryTimeouts_clears.
Qed.

(** A call for a record that is no longer ['sending'] or ['receiving'] is
    not a no-op: it emits ['cancelled'] and arms a removal timer. *)
Lemma cancel_of_terminal_emits st transferId t :
  FT.transfers st !! transferId = Some t →
  FT.status t ≠ sending → FT.status t ≠ receiving →
  let r := FT.cancelTransfer transferId st in
  r.2 = None ∧
  FT.emitted r.1 = FT.emitted st ++ [EvCancelled transferId] ∧
  (FT.status <$> FT.transfers r.1 !! transferId) = Some cancelled ∧
  FT.timers r.1 = <[FT.nextTimer st := FT.DeleteCb transferId]> (FT.timers st) ∧
  Net.sent (FT.net r.1) = Net.sent (FT.net st).
Proof.
  intros Ht Hs Hr. unfold FT.cancelTransfer. rewrite Ht.
  rewrite decide_False by done. rewrite decide_False by done. simpl.
  destruct (FT.transferWorker st); simpl; rewrite lookup_insert_eq; done.
Qed.

(** Once a record is not ['sending'], its retry timers, late chunks of the
    worker and acknowledgements do nothing. *)
Lemma not_sending_is_ignored st transferId t idx chunk isLast rid s :
  FT.transfers st !! transferId = Some t →
  FT.status t ≠ sending →
  FT.retryChunk transferId idx rid st = (st, None) ∧
  FT.sendFileChunk transferId idx chunk isLast rid st = (st, None) ∧
  FT.handleChunkAcknowledgment transferId idx s st = (st, None).
Proof.
  intros Ht Hs.
  unfold FT.retryChunk, FT.sendFileChunk, FT.handleChunkAcknowledgment.
  rewrite Ht. by rewrite !decide_True by done.
Qed.

(** ** Sending while the network manager is not connected *)

(** C9 (counterexample): the socket is not connected when the file is
    sent.  [sendTcpMessage] returns [false], [sendFileMetadata] ignores the
    result and stores the record with status ['sending']; nothing is
    emitted, nothing is sent, and the record is still ['sending'] after
    the chunk was handed to [sendFileChunk]. *)
Lemma C9_offline_transfer_is_sending :
  let st := Sys.main (Scenario.send_metadata_only Scenario.offline
                        Scenario.one_byte_file) in
  let st' := Sys.main (Scenario.send_small_file Scenario.offline
                         Scenario.one_byte_file) in
  Net.connected (FT.net st) = false ∧
  (FT.status <$> FT.transfers st !! "f-7") = Some sending ∧
  (FT.status <$> FT.transfers st !! "f-7") ≠ Some error ∧
  FT.emitted st = [] ∧ Net.sent (FT.net st) = [] ∧
  (FT.status <$> FT.transfers st' !! "f-7") = Some sending ∧
  terminal_events "f-7" st' = [EvComplete "f-7" true] ∧
  Net.sent (FT.net st') = [].
Proof. vm_compute. repeat split; try reflexivity. intros H. discriminate H. Qed.

(** C9 (amended): when the network manager is not connected,
    [sendTcpMessage] returns [false] and sends nothing; [sendFileMetadata]
    does not throw, still stores the record, and the record's status is
    ['sending']; no event is emitted. *)
Theorem C9_offline_metadata_keeps_sending st transferId metadata receiverId :
  Net.connected (FT.net st) = false →
  let r := FT.sendFileMetadata transferId metadata receiverId st in
  (Net.sendTcpMessage (MsgFileMetadata metadata transferId receiverId)
     (FT.net st)).2 = false ∧
  r.2 = None ∧
  FT.transfers r.1 !! transferId
    = Some (FT.mkTransfer metadata sending (FT.SenderFields receiverId ∅ ∅ ∅)) ∧
  Net.sent (FT.net r.1) = Net.sent (FT.net st) ∧
  FT.emitted r.1 = FT.emitted st.
Proof.
  intros Hc. unfold FT.sendFileMetadata, FT.sendTcpMessage, Net.sendTcpMessage.
  rewrite Hc. simpl. by rewrite lookup_insert_eq.
Qed.

(** A fresh manager next to a network manager that is not connected. *)
Lemma C9_offline_metadata_keeps_sending_witness :
  let st := FT.init Scenario.offline in
  let r := FT.sendFileMetadata "t" (Scenario.metadata_of 1 1) "bob" st in
  (Net.sendTcpMessage (MsgFileMetadata (Scenario.metadata_of 1 1) "t" "bob")
     (FT.net st)).2 = false ∧
  r.2 = None ∧
  FT.transfers r.1 !! "t"
    = Some (FT.mkTransfer (Scenario.metadata_of 1 1) sending
              (FT.SenderFields "bob" ∅ ∅ ∅)) ∧
  Net.sent (FT.net r.1) = Net.sent (FT.net st) ∧
  FT.emitted r.1 = FT.emitted st.
Proof.
  apply (C9_offline_metadata_keeps_sending (FT.init Scenario.offline)).
  reflexivity.
Defined.

(** No operation of the manager gives a record the status ['error']. *)
Lemma manager_never_sets_error st i : no_error st → no_error (FT.step st i).
Proof.
  unfold no_error, FT.step. intros H.
  assert (∀ (m : gmap string FT.Transfer) k t,
             map_Forall (λ _ t, FT.status t ≠ error) m →
             m !! k = Some t → FT.status t ≠ error) as Hl
    by (intros m k t Hm Hk; exact (Hm k t Hk)).
  destruct i as [ww|ww fid f rid|tid|m|m|h|b]; simpl.
  - unfold FT.init_. by destruct (FT.initialized st).
  - unfold FT.sendFile, FT.init_. repeat case_match; simpl; done.
  - unfold FT.cancelTransfer. ft_cases;
      repeat (apply map_Forall_insert_2; [done|]); done.
  - destruct m; simpl;
      unfold FT.sendFileMetadata, FT.sendFileChunk, FT.completeFileReceive.
    all: ft_cases; repeat (apply map_Forall_insert_2; [simpl; eauto|]); eauto.
    all: congruence.
  - destruct (FT.initialized st); [|done].
    destruct m as [md sid|tid idx c cm|tid idx s|tid|]; simpl;
      unfold FT.handleIncomingFileMetadata, FT.handleIncomingFileChunk,
        FT.handleChunkAcknowledgment, FT.cancelTransfer, FT.assembleFile.
    all: ft_cases; repeat (apply map_Forall_insert_2; [simpl; eauto|]); eauto.
    all: congruence.
  - unfold FT.fireTimer.
    destruct (FT.timers st !! h) as [[tid idx rid|tid]|]; simpl; [| |done].
    + unfold FT.retryChunk.
      ft_cases; repeat (apply map_Forall_insert_2; [simpl; eauto|]); eauto.
      all: congruence.
    + by apply map_Forall_delete.
  - done.
Qed.

(** ** A second metadata message for the same transfer *)

(** C10: [handleIncomingFileMetadata] stores a fresh record under the
    metadata's [transferId], whatever was stored there: the new record is
    ['receiving'] with an empty [receivedChunks] map, so the chunks
    buffered before are gone, and one more ['incoming-file'] event is
    emitted.  All other records are left alone. *)
Theorem C10_metadata_replaces_record st metadata senderId :
  let transferId := md_transferId metadata in
  let r := FT.handleIncomingFileMetadata metadata senderId st in
  r.2 = None ∧
  FT.transfers r.1 !! transferId
    = Some (FT.mkTransfer metadata receiving (FT.ReceiverFields senderId ∅ ∅)) ∧
  (FT.transfers r.1 !! transferId ≫= receivedChunks_of) = Some ∅ ∧
  (∀ other, other ≠ transferId →
            FT.transfers r.1 !! other = FT.transfers st !! other) ∧
  FT.emitted r.1
    = FT.emitted st ++ [EvIncomingFile transferId (md_fileName metadata)
                          (md_fileSize metadata) (md_fileType metadata)
                          senderId].
Proof.
  simpl. rewrite lookup_insert_eq. repeat split; try done.
  intros other Hne. by rewrite lookup_insert_ne.
Qed.

(** The same on a run: metadata, one chunk of two, the metadata again. *)
Example metadata_twice_discards_buffered_chunk :
  let s1 := Sys.run (Scenario.receiver_ready 70000 2)
              [Sys.Main (Scenario.chunk_msg 0 2 [Byte.x01])] in
  let s2 := Sys.step s1
              (Sys.Main (FT.FromNetwork
                           (InFileMetadata (Scenario.metadata_of 70000 2) "alice"))) in
  (FT.transfers (Sys.main s1) !! "t" ≫= receivedChunks_of)
    = Some {[0 := [Byte.x01]]} ∧
  (FT.transfers (Sys.main s2) !! "t" ≫= receivedChunks_of) = Some ∅ ∧
  FT.emitted (Sys.main s2)
    = [EvIncomingFile "t" "a.txt" 70000 "text/plain" "alice";
       EvIncomingFile "t" "a.txt" 70000 "text/plain" "alice"].
Proof. vm_compute. repeat split; reflexivity. Qed.

(* ===================================================================== *)
(** * Further properties of the code                                      *)
(* ===================================================================== *)

(** ** Worker pools: what holds for every sequence of events *)

Section PoolMore.
Context {Task Res : Type}.
Implicit Types (p : Pool.State Task Res) (evs : list (Pool.Event Task Res)).

Lemma pool_run_maxWorkers evs p :
  Pool.maxWorkers (Pool.run p evs) = Pool.maxWorkers p.
Proof.
  revert p. induction evs as [|ev evs IH]; intros p; [done|].
  simpl. rewrite IH. clear IH.
  destruct ev as [t|w r|w e|w code]; simpl.
  - unfold Pool.submit. by rewrite processQueue_maxWorkers.
  - case_decide; [|done]. unfold Pool.on_message.
    by rewrite processQueue_maxWorkers.
  - case_decide; [|done]. unfold Pool.on_error.
    by rewrite processQueue_maxWorkers.
  - case_decide; [|done]. unfold Pool.on_exit. destruct (code =? 0); [done|].
    by rewrite processQueue_maxWorkers.
Qed.

(** [processQueue] leaves a task waiting only when the counter is at the
    maximum, if before the call at most one task could be started. *)
Lemma processQueue_conserving p :
  Pool.taskQueue p = [] ∨ Pool.maxWorkers p - 1 ≤ Pool.activeWorkers p
    ∨ length (Pool.taskQueue p) = 1%nat →
  Pool.taskQueue (Pool.processQueue p) = [] ∨
  Pool.maxWorkers (Pool.processQueue p) ≤ Pool.activeWorkers (Pool.processQueue p).
Proof.
  intros H. unfold Pool.processQueue.
  destruct (Pool.taskQueue p) as [|t rest] eqn:E; [by left; rewrite E|].
  destruct (Z.geb_spec (Pool.activeWorkers p) (Pool.maxWorkers p)).
  - right. lia.
  - simpl. destruct H as [H|[H|H]]; [done|right; lia|].
    left. by destruct rest.
Qed.

(** X1: tasks are started in submission order, none is lost and none is
    started twice: at every moment the tasks started so far followed by
    the tasks still queued are the tasks submitted so far. *)
Theorem pool_starts_tasks_in_submission_order evs maxW :
  let p := Pool.run (Pool.init maxW) evs in
  Pool.started p ++ Pool.taskQueue p = Pool.submissions evs.
Proof. apply pool_fifo_init. Qed.

(** X2: the counter never exceeds [maxWorkers], whatever the workers do. *)
Theorem pool_counter_never_exceeds_max evs maxW :
  0 ≤ maxW →
  Pool.activeWorkers (Pool.run (Pool.init maxW) evs) ≤ maxW.
Proof.
  intros H.
  pose proof (pool_upper_bound evs (Pool.init maxW)) as Hb.
  rewrite pool_run_maxWorkers in Hb. simpl in Hb. apply Hb. lia.
Qed.

(** X3: the pool is work conserving: a task waits in the queue only while
    the counter is at (or above) [maxWorkers]. *)
Theorem pool_queues_only_when_full evs maxW :
  let p := Pool.run (Pool.init maxW) evs in
  Pool.taskQueue p = [] ∨ maxW ≤ Pool.activeWorkers p.
Proof.
  simpl.
  assert (∀ p : Pool.State Task Res,
             Pool.taskQueue p = [] ∨ Pool.maxWorkers p ≤ Pool.activeWorkers p →
             Pool.taskQueue (Pool.run p evs) = [] ∨
             Pool.maxWorkers p ≤ Pool.activeWorkers (Pool.run p evs)) as Hrun.
  { induction evs as [|ev evs IH]; intros p Hp; [done|].
    simpl.
    assert (Pool.maxWorkers (Pool.step p ev) = Pool.maxWorkers p) as Hm
      by apply (pool_run_maxWorkers [ev]).
    rewrite <- Hm. apply IH. clear IH. rewrite Hm.
    destruct ev as [t|w r|w e|w code]; simpl in *.
    - unfold Pool.submit in *.
      match goal with |- context [Pool.processQueue ?q] =>
        pose proof (processQueue_conserving q) as Hq;
        rewrite processQueue_maxWorkers in Hq end.
      simpl in Hq. apply Hq. destruct Hp as [->|Hp]; [by right; right|].
      right. left. lia.
    - case_decide; [|done]. unfold Pool.on_message in *.
      match goal with |- context [Pool.processQueue ?q] =>
        pose proof (processQueue_conserving q) as Hq;
        rewrite processQueue_maxWorkers in Hq end.
      simpl in Hq. apply Hq. destruct Hp as [->|Hp]; [by left|]. right. left. lia.
    - case_decide; [|done]. unfold Pool.on_error in *.
      match goal with |- context [Pool.processQueue ?q] =>
        pose proof (processQueue_conserving q) as Hq;
        rewrite processQueue_maxWorkers in Hq end.
      simpl in Hq. apply Hq. destruct Hp as [->|Hp]; [by left|]. right. left. lia.
    - case_decide; [|done]. unfold Pool.on_exit in *.
      destruct (code =? 0); [done|].
      match goal with |- context [Pool.processQueue ?q] =>
        pose proof (processQueue_conserving q) as Hq;
        rewrite processQueue_maxWorkers in Hq end.
      simpl in Hq. apply Hq. destruct Hp as [->|Hp]; [by left|]. right. left. lia. }
  apply (Hrun (Pool.init maxW)). by left.
Qed.

(** X4: when every worker settles its task at most once (one of
    ['message'], ['error'] and a non-zero ['exit']), the counter stays
    within [0 .. maxWorkers]. *)
Theorem pool_counter_in_bounds_when_settled_once evs maxW :
  0 ≤ maxW →
  NoDup (Pool.settled (Pool.run (Pool.init maxW) evs)).*1 →
  0 ≤ Pool.activeWorkers (Pool.run (Pool.init maxW) evs) ≤ maxW.
Proof.
  intros H Hnd. pose proof (pool_bounds_single_settle evs maxW H Hnd) as Hb.
  rewrite pool_run_maxWorkers in Hb. exact Hb.
Qed.

End PoolMore.

Lemma pool_counter_never_exceeds_max_witness :
  Pool.activeWorkers
    (Pool.run (Pool.init 1)
       [Pool.Submit "a"; Pool.Submit "b"; Pool.Message 0%nat "done"]) ≤ 1.
Proof. apply pool_counter_never_exceeds_max. lia. Defined.

Lemma pool_counter_in_bounds_when_settled_once_witness :
  0 ≤ Pool.activeWorkers
        (Pool.run (Pool.init 1)
           [Pool.Submit "a"; Pool.Submit "b"; Pool.Message 0%nat "done";
            Pool.Exit 0%nat 0; Pool.Error 1%nat "boom"]) ≤ 1.
Proof.
  apply pool_counter_in_bounds_when_settled_once; [lia|].
  vm_compute. repeat constructor; set_solver.
Defined.

(** ** The worker script: chunk sizes, termination, abort *)


(** X5: the chunks are contiguous and do not overlap or leave a gap:
    concatenated by ascending index they are the file's bytes. *)
Theorem chunks_concatenate_to_the_file (f : File) :
  concat (map (Worker.readNextChunk f)
              (indices (ceil_div (file_size f) CHUNK_SIZE)))
  = file_content f.
Proof. apply slices_concat. Qed.


(** X7: the worker reads every file to the end: with enough fuel the
    reader stops, the transfer object is ['complete'], and the messages
    posted are the metadata, then for each index of
    [0 .. max 1 totalChunks - 1] in ascending order the chunk and a
    progress update, then [transfer-complete]. *)
Theorem worker_reads_every_file_to_the_end fileId file receiverId now1 now2 fuel :
  let n := WorkerRun.total file in
  let tid := WorkerRun.transferId fileId now1 in
  let w := Worker.drain fuel 0
             (Worker.processFile fileId file receiverId now1 now2 Worker.init) in
  (Z.to_nat (Z.max 1 n) ≤ fuel)%nat →
  (Worker.rd_pending <$> Worker.readers w !! 0%nat) = Some false ∧
  (Worker.status <$> Worker.heap w !! 0%nat) = Some complete ∧
  Worker.posted w
  = WSendMetadata tid (WorkerRun.metadata fileId file now1 now2) receiverId
    :: concat (map (WorkerRun.chunk_posts fileId file receiverId now1)
                   (indices (Z.max 1 n)))
    ++ [WTransferComplete tid true].
Proof.
  intros n tid w Hf. subst n tid w. rewrite processFile_init.
  rewrite (drain_finishes _ _ _ _ _
             (Z.to_nat (Z.max 1 (WorkerRun.total file)) - 1) 0) by lia.
  simpl. repeat split. do 5 f_equal. lia.
Qed.



Lemma worker_reads_every_file_to_the_end_witness :
  let w := Worker.drain 1 0
             (Worker.processFile "f" Scenario.one_byte_file "bob" 7 8
                Worker.init) in
  (Worker.rd_pending <$> Worker.readers w !! 0%nat) = Some false ∧
  (Worker.status <$> Worker.heap w !! 0%nat) = Some complete ∧
  Worker.posted w
  = WSendMetadata (WorkerRun.transferId "f" 7)
      (WorkerRun.metadata "f" Scenario.one_byte_file 7 8) "bob"
    :: concat (map (WorkerRun.chunk_posts "f" Scenario.one_byte_file "bob" 7)
                   (indices (Z.max 1 (WorkerRun.total Scenario.one_byte_file))))
    ++ [WTransferComplete (WorkerRun.transferId "f" 7) true].
Proof.
  apply (worker_reads_every_file_to_the_end "f" Scenario.one_byte_file "bob" 7 8 1).
  vm_compute. lia.
Defined.

(** ** The manager: timer handles *)

Lemma retry_handles_below_mono n m t :
  (n ≤ m)%nat → retry_handles_below n t → retry_handles_below m t.
Proof.
  unfold retry_handles_below. intros Hnm. destruct (FT.fields t); [|done].
  intros H. eapply map_Forall_impl; [exact H|]. simpl. intros. lia.
Qed.

Lemma timers_below_mono (n m : nat) (tm : gmap nat FT.TimerCb) :
  (n ≤ m)%nat →
  map_Forall (λ h _, (0 < h < n)%nat) tm → map_Forall (λ h _, (0 < h < m)%nat) tm.
Proof.
  intros Hnm H. eapply map_Forall_impl; [exact H|]. simpl. intros. lia.
Qed.

Lemma transfers_below_mono (n m : nat) (ts : gmap string FT.Transfer) :
  (n ≤ m)%nat →
  map_Forall (λ _ t, retry_handles_below n t) ts →
  map_Forall (λ _ t, retry_handles_below m t) ts.
Proof.
  intros Hnm H. eapply map_Forall_impl; [exact H|]. simpl. intros ? ?.
  by apply retry_handles_below_mono.
Qed.

Lemma clearRetryTimeouts_timers_below r st n :
  map_Forall (λ h _, (0 < h < n)%nat) (FT.timers st) →
  map_Forall (λ h _, (0 < h < n)%nat) (FT.timers (FT.clearRetryTimeouts r st)).
Proof.
  intros H. unfold FT.clearRetryTimeouts.
  induction ((map_to_list r).*2) as [|x l IH]; [done|].
  simpl. case_decide; [|done]. simpl. by apply map_Forall_delete.
Qed.

Lemma clearRetryTimeouts_nextTimer r st :
  FT.nextTimer (FT.clearRetryTimeouts r st) = FT.nextTimer st.
Proof. apply clearRetryTimeouts_frame. Qed.

Lemma retries_below_mono (n m : nat) (r : gmap Z FT.RetryInfo) :
  (n ≤ m)%nat →
  map_Forall (λ _ ri, (0 < FT.timeout ri < n)%nat) r →
  map_Forall (λ _ ri, (0 < FT.timeout ri < m)%nat) r.
Proof.
  intros Hnm H. eapply map_Forall_impl; [exact H|]. simpl. intros. lia.
Qed.

Ltac fresh_use :=
  try match goal with
  | H : map_Forall (λ _ t, retry_handles_below _ t) ?ts, L : ?ts !! _ = Some ?t,
    F : FT.fields ?t = FT.SenderFields _ _ _ _ |- _ =>
      let HR := fresh "HR" in
      pose proof (H _ _ L) as HR; unfold retry_handles_below in HR;
      rewrite F in HR;
      try match goal with
      | L2 : ?r !! _ = Some _ |- _ =>
          let HI := fresh "HI" in pose proof (HR _ _ L2) as HI; simpl in HI
      end
  end.

Ltac fresh_close :=
  repeat match goal with
  | |- _ ∧ _ => split
  | |- (_ < _)%nat => simpl; lia
  | |- (0 < _ < _)%nat => simpl; lia
  | |- True => exact I
  | |- map_Forall _ (<[_:=_]> _) => apply map_Forall_insert_2
  | |- map_Forall _ (delete _ _) => apply map_Forall_delete
  | |- map_Forall _ ∅ => apply map_Forall_empty
  | |- map_Forall (λ h _, (0 < h < _)%nat) (FT.timers (FT.clearRetryTimeouts _ _)) =>
      apply clearRetryTimeouts_timers_below
  | H : map_Forall (λ h _, (0 < h < ?n)%nat) ?tm
    |- map_Forall (λ h _, (0 < h < ?m)%nat) ?tm =>
      apply (timers_below_mono n m); [lia|exact H]
  | H : map_Forall (λ _ t, retry_handles_below ?n t) ?ts
    |- map_Forall (λ _ t, retry_handles_below ?m t) ?ts =>
      apply (transfers_below_mono n m); [lia|exact H]
  | H : map_Forall (λ _ ri, (0 < FT.timeout ri < ?n)%nat) ?r
    |- map_Forall (λ _ ri, (0 < FT.timeout ri < ?m)%nat) ?r =>
      apply (retries_below_mono n m); [lia|exact H]
  | H : map_Forall (λ _ t, retry_handles_below ?n t) ?ts, L : ?ts !! _ = Some ?t
    |- retry_handles_below ?m (FT.set_status _ ?t) =>
      apply (retry_handles_below_mono n m); [lia|exact (H _ _ L)]
  | L : ?ts !! _ = Some ?t |- retry_handles_below ?m (FT.set_status _ ?t) =>
      cut (map_Forall (λ _ t, retry_handles_below m t) ts);
      [let HH := fresh in intros HH; exact (HH _ _ L)|]
  | |- retry_handles_below _ (FT.mkTransfer _ _ _) =>
      unfold retry_handles_below; simpl
  end.

Lemma timers_fresh_step st i : timers_fresh st → timers_fresh (FT.step st i).
Proof.
  unfold timers_fresh, FT.step. intros (Hn & Ht & Hr).
  destruct i as [ww|ww fid f rid|tid|m|m|h|b]; simpl.
  - unfold FT.init_. by destruct (FT.initialized st).
  - unfold FT.sendFile, FT.init_. repeat case_match; simpl; done.
  - unfold FT.cancelTransfer. ft_cases; rewrite ?clearRetryTimeouts_nextTimer;
      fresh_use; fresh_close.
  - destruct m; simpl;
      unfold FT.sendFileMetadata, FT.sendFileChunk, FT.completeFileReceive.
    all: ft_cases; fresh_use; fresh_close.
  - destruct (FT.initialized st); [|done].
    destruct m as [md sid|tid idx c cm|tid idx s|tid|]; simpl;
      unfold FT.handleIncomingFileMetadata, FT.handleIncomingFileChunk,
        FT.handleChunkAcknowledgment, FT.cancelTransfer, FT.assembleFile.
    all: ft_cases; rewrite ?clearRetryTimeouts_nextTimer; fresh_use; fresh_close.
  - unfold FT.fireTimer.
    destruct (FT.timers st !! h) as [[tid idx rid|tid]|]; simpl; [| |done].
    + unfold FT.retryChunk. ft_cases; fresh_use; fresh_close.
    + fresh_close.
  - done.
Qed.

(** ** The manager: timers, acknowledgements, duplicates *)

Lemma timers_fresh_run n inputs : timers_fresh (FT.run (FT.init n) inputs).
Proof.
  assert (∀ st, timers_fresh st → timers_fresh (FT.run st inputs)) as Hrun.
  { induction inputs as [|i inputs IH]; intros st Hst; [done|].
    simpl. apply IH. by apply timers_fresh_step. }
  apply Hrun. split; [simpl; lia|]. split; apply map_Forall_empty.
Qed.

Lemma no_error_run n inputs : no_error (FT.run (FT.init n) inputs).
Proof.
  assert (∀ st, no_error st → no_error (FT.run st inputs)) as Hrun.
  { induction inputs as [|i inputs IH]; intros st Hst; [done|].
    simpl. apply IH. by apply manager_never_sets_error. }
  apply Hrun. apply map_Forall_empty.
Qed.

(** X9: in every run of the manager, [cancelTransfer] on a sending
    transfer leaves none of the retry timers stored in the record pending
    (the handles are never 0 and never the handle of the removal timer). *)
Theorem cancel_clears_every_stored_retry_timer n inputs transferId t r idx ri :
  let st := FT.run (FT.init n) inputs in
  FT.transfers st !! transferId = Some t →
  FT.status t = sending →
  retries_of t = Some r →
  r !! idx = Some ri →
  FT.timers (FT.step st (FT.CallCancelTransfer transferId)) !! FT.timeout ri = None.
Proof.
  intros st Ht Hs Hr Hi.
  pose proof (timers_fresh_run n inputs) as (Hn & _ & Hf). fold st in Hn, Hf.
  pose proof (Hf _ _ Ht) as Hb. unfold retry_handles_below in Hb.
  unfold retries_of in Hr. destruct (FT.fields t) as [rid sent acked r'|] eqn:F;
    [|done]. injection Hr as ->. specialize (Hb _ _ Hi). simpl in Hb.
  unfold FT.step. simpl. unfold FT.cancelTransfer. rewrite Ht, Hs, F. simpl.
  pose proof (clearRetryTimeouts_nextTimer r st) as Hnx.
  pose proof (clearRetryTimeouts_clears r st idx ri Hi ltac:(lia)) as Hc.
  destruct (FT.transferWorker _); simpl; rewrite Hnx;
    rewrite lookup_insert_ne by lia; exact Hc.
Qed.

(** X10: in every run of the manager, an acknowledgement for an index
    with a retry entry removes the entry and its timer: the timer can no
    longer fire. *)
Theorem ack_removes_the_retry_timer n inputs transferId t r idx ri :
  let st := FT.run (FT.init n) inputs in
  let st' := (FT.handleChunkAcknowledgment transferId idx "received" st).1 in
  FT.transfers st !! transferId = Some t →
  FT.status t = sending →
  retries_of t = Some r →
  r !! idx = Some ri →
  FT.timers st' !! FT.timeout ri = None ∧
  (FT.transfers st' !! transferId ≫= retries_of) = Some (delete idx r) ∧
  FT.fireTimer (FT.timeout ri) st' = (st', None).
Proof.
  intros st st' Ht Hs Hr Hi. subst st'.
  pose proof (timers_fresh_run n inputs) as (Hn & _ & Hf). fold st in Hn, Hf.
  pose proof (Hf _ _ Ht) as Hb. unfold retry_handles_below in Hb.
  unfold retries_of in Hr. destruct (FT.fields t) as [rid sent acked r'|] eqn:F;
    [|done]. injection Hr as ->. specialize (Hb _ _ Hi). simpl in Hb.
  unfold FT.handleChunkAcknowledgment. rewrite Ht, F, Hi.
  rewrite decide_False by (by rewrite Hs; intros []).
  rewrite decide_True by done. rewrite decide_True by lia.
  assert (∀ s, FT.timers s !! FT.timeout ri = None →
               FT.fireTimer (FT.timeout ri) s = (s, None)) as Hfire
    by (intros s Hnone; unfold FT.fireTimer; by rewrite Hnone).
  destruct (_ =? _); simpl;
    (split; [apply lookup_delete_eq|]);
    (split; [by rewrite lookup_insert_eq|]);
    apply Hfire; simpl; apply lookup_delete_eq.
Qed.

(** X11: on the sending side, when only indices of [0 .. totalChunks-1]
    are acknowledged, an acknowledgement makes the record ['complete']
    exactly when after it every index is acknowledged. *)
Theorem sender_completes_iff_all_acknowledged
    st transferId idx t rid sent acked retries :
  let st' := (FT.handleChunkAcknowledgment transferId idx "received" st).1 in
  FT.transfers st !! transferId = Some t →
  FT.status t = sending →
  FT.fields t = FT.SenderFields rid sent acked retries →
  0 ≤ idx < FT.totalChunks t →
  (∀ i, i ∈ acked → 0 ≤ i < FT.totalChunks t) →
  (FT.status <$> FT.transfers st' !! transferId) = Some complete
  ↔ (∀ i, 0 ≤ i < FT.totalChunks t → i = idx ∨ i ∈ acked).
Proof.
  intros st' Ht Hs Hf Hidx Hacked. subst st'.
  rewrite (ack_completes_iff_size st transferId idx t rid sent acked retries)
    by done.
  rewrite size_test_is_membership; [|lia|].
  - split; intros H i Hi; specialize (H i Hi); set_solver.
  - intros i Hi. apply elem_of_union in Hi as [Hi|Hi]; [|by apply Hacked].
    apply elem_of_singleton in Hi. lia.
Qed.

(** X12: a chunk message that arrives twice changes nothing the second
    time, neither the records (the buffered chunks, the status) nor the
    events emitted; only the acknowledgement and the worker message are
    repeated. *)
Theorem duplicate_chunk_changes_nothing st transferId idx chunk metadata :
  let st1 := (FT.handleIncomingFileChunk transferId idx chunk metadata st).1 in
  let st2 := (FT.handleIncomingFileChunk transferId idx chunk metadata st1).1 in
  FT.transfers st2 = FT.transfers st1 ∧ FT.emitted st2 = FT.emitted st1.
Proof.
  simpl.
  remember (FT.handleIncomingFileChunk transferId idx chunk metadata st) as o
    eqn:Ho.
  unfold FT.handleIncomingFileChunk in Ho.
  destruct (FT.transfers st !! transferId) as [t|] eqn:Ht.
  2: { subst o. simpl. unfold FT.handleIncomingFileChunk. by rewrite Ht. }
  destruct (decide (FT.status t ≠ receiving)) as [Hs|Hs].
  { subst o. simpl. unfold FT.handleIncomingFileChunk. rewrite Ht.
    by rewrite decide_True. }
  destruct (FT.fields t) as [|sid rc mc] eqn:F.
  { subst o. simpl. unfold FT.handleIncomingFileChunk. rewrite Ht, F.
    by rewrite decide_False by done. }
  assert (FT.status t = receiving) as Hrec
    by (destruct (decide (FT.status t = receiving)); [done|contradiction]).
  unfold FT.totalChunks in Ho. simpl in Ho.
  destruct (Z.eqb_spec (Z.of_nat (size (<[idx:=chunk]> rc)))
              (md_totalChunks (FT.meta t))) as [E|E].
  - (* completed by the first copy: the second is ignored *)
    subst o. unfold FT.assembleFile, FT.handleIncomingFileChunk.
    destruct (FT.transferWorker st); simpl;
      rewrite !lookup_insert_eq; simpl; rewrite Hrec; simpl;
      rewrite !lookup_insert_eq; simpl; done.
  - subst o. unfold FT.handleIncomingFileChunk. simpl.
    assert (∀ b (x y : FT.State), FT.transfers x = FT.transfers y →
              FT.transfers (if b : bool then x else y) = FT.transfers y) as Hif
      by (by intros [] x y Hxy).
    rewrite !Hif by done. simpl.
    rewrite !lookup_insert_eq; simpl; rewrite Hrec; simpl.
    unfold FT.totalChunks; simpl. rewrite !insert_insert_eq.
    destruct (Z.eqb_spec (Z.of_nat (size (<[idx:=chunk]> rc)))
                (md_totalChunks (FT.meta t))); [done|].
    destruct (FT.transferWorker st) eqn:W; simpl; rewrite ?W; simpl;
      by rewrite ?insert_insert_eq.
Qed.

(** X13: no run of the manager ever gives a record the status ['error'],
    whatever fails. *)
Theorem no_record_ever_has_status_error n inputs transferId :
  (FT.status <$> FT.transfers (FT.run (FT.init n) inputs) !! transferId)
  ≠ Some error.
Proof.
  destruct (FT.transfers _ !! transferId) as [t|] eqn:Ht; [|done].
  simpl. intros [= He]. exact (no_error_run n inputs _ _ Ht He).
Qed.

(** X14: once [cancelTransfer] has run for a record, the sending and
    receiving handlers ignore it: a late chunk of the worker, a retry
    timer, an acknowledgement and an incoming chunk leave the state as it
    is. *)
Theorem cancelled_transfer_is_inert st transferId t idx chunk isLast rid s cm :
  let st' := (FT.cancelTransfer transferId st).1 in
  FT.transfers st !! transferId = Some t →
  (FT.cancelTransfer transferId st).2 = None →
  FT.sendFileChunk transferId idx chunk isLast rid st' = (st', None) ∧
  FT.retryChunk transferId idx rid st' = (st', None) ∧
  FT.handleChunkAcknowledgment transferId idx s st' = (st', None) ∧
  FT.handleIncomingFileChunk transferId idx chunk cm st' = (st', None).
Proof.
  intros st' Ht Hok. subst st'.
  assert (∃ t', FT.transfers (FT.cancelTransfer transferId st).1 !! transferId
                = Some t' ∧ FT.status t' = cancelled) as (t' & Ht' & Hs').
  { revert Hok. unfold FT.cancelTransfer. rewrite Ht.
    ft_cases; intros; try discriminate;
      eexists; (split; [apply lookup_insert_eq|done]). }
  unfold FT.sendFileChunk, FT.retryChunk, FT.handleChunkAcknowledgment,
    FT.handleIncomingFileChunk.
  rewrite Ht'. rewrite !decide_True by (by rewrite Hs'). done.
Qed.

(** ** A file over TCP: the metadata line and the segments *)

Section TcpFacts.
Context {Info : Type} (stringify : Info → Bytes) (parse : Bytes → option Info)
  (truthy : Info → bool).

Lemma indexOf_newline_app (meta rest : Bytes) :
  TcpTransfer.newline ∉ meta →
  TcpTransfer.indexOf_newline (meta ++ TcpTransfer.newline :: rest)
  = Some (length meta).
Proof.
  induction meta as [|b meta IH]; intros Hn; cbn [TcpTransfer.indexOf_newline app].
  - by rewrite decide_True.
  - rewrite decide_False by (intros ->; apply Hn; left).
    rewrite IH; [done|]. intros H. apply Hn. by right.
Qed.


Lemma drop_past_separator {A} (l : list A) x t :
  drop (S (length l)) (l ++ x :: t) = t.
Proof. induction l as [|a l IH]; simpl; [done|exact IH]. Qed.

Lemma receive_body (segments : list Bytes) (c : TcpTransfer.Conn) info :
  TcpTransfer.fileInfo c = Some info → truthy info = true →
  TcpTransfer.receive parse truthy segments c
  = Some (TcpTransfer.mkConn (TcpTransfer.fileData c ++ concat segments)
                             (Some info)).
Proof.
  revert c. induction segments as [|s segments IH]; intros c Hc Ht; simpl.
  - rewrite app_nil_r. destruct c; simpl in *; by subst.
  - unfold TcpTransfer.on_data, TcpTransfer.has_info. rewrite Hc, Ht.
    rewrite IH by done. simpl. by rewrite app_assoc.
Qed.

(** What the first segment does when it holds the whole metadata line. *)
Lemma receive_first (info : Info) (tail : Bytes) (segments : list Bytes) :
  TcpTransfer.newline ∉ stringify info →
  parse (stringify info) = Some info → truthy info = true →
  TcpTransfer.receive parse truthy
    ((stringify info ++ TcpTransfer.newline :: tail) :: segments)
    TcpTransfer.connected
  = Some (TcpTransfer.mkConn (tail ++ concat segments) (Some info)).
Proof.
  intros Hn Hp Ht. simpl. unfold TcpTransfer.on_data. simpl.
  rewrite indexOf_newline_app by done.
  rewrite take_app_length. rewrite Hp.
  rewrite receive_body with (info := info) by done. simpl.
  by rewrite drop_past_separator.
Qed.

(** X15: round trip.  When the first segment that arrives holds the whole
    metadata line, the server ends with the [fileInfo] that was sent and
    exactly the bytes of the file, however the rest of the stream is cut
    into segments. *)
Theorem tcp_file_roundtrip (info : Info) (data first : Bytes)
    (segments : list Bytes) :
  TcpTransfer.newline ∉ stringify info →
  parse (stringify info) = Some info →
  truthy info = true →
  first ++ concat segments = TcpTransfer.sendFile stringify info data →
  (length (stringify info) < length first)%nat →
  (TcpTransfer.receive parse truthy (first :: segments) TcpTransfer.connected
     ≫= TcpTransfer.on_end truthy)
  = Some (info, data).
Proof.
  intros Hn Hp Htr Hs Hl. unfold TcpTransfer.sendFile in Hs.
  rewrite <- app_assoc in Hs. simpl in Hs.
  assert (first = stringify info ++ TcpTransfer.newline
                    :: take (length first - S (length (stringify info))) data
          ∧ concat segments
            = drop (length first - S (length (stringify info))) data)
    as [Hf Hr].
  { pose proof (f_equal (take (length first)) Hs) as Ht.
    pose proof (f_equal (drop (length first)) Hs) as Hd.
    rewrite take_app_length in Ht. rewrite drop_app_length in Hd.
    rewrite take_app in Ht. rewrite drop_app in Hd.
    rewrite take_ge in Ht by lia. rewrite drop_ge in Hd by lia.
    replace (length first - length (stringify info))%nat
      with (S (length first - S (length (stringify info)))) in Ht, Hd by lia.
    simpl in Ht, Hd. done. }
  rewrite Hf at 1. rewrite receive_first by done. simpl.
  unfold TcpTransfer.on_end. simpl. by rewrite Htr, Hr, take_drop.
Qed.


End TcpFacts.

(** ** The chat server: worker assignment and forwarding *)























(** ** The network manager *)

Section NetworkManagerFacts.
Context {M : Type} (throws : nat → M → bool).
Implicit Types (st : NetworkManager.State M) (ops : list (NetworkManager.Op M)).

Lemma nm_inactive_step st o :
  NetworkManager.active st = false →
  NetworkManager.active (NetworkManager.step throws st o) = false ∧
  worker_sends (NetworkManager.step throws st o) = worker_sends st.
Proof.
  intros Ha. unfold worker_sends. destruct o; simpl;
    unfold NetworkManager.sendUdpMessage, NetworkManager.sendTcpMessage,
      NetworkManager.worker_send, NetworkManager.onMessage,
      NetworkManager.disconnect, NetworkManager.terminate;
    repeat case_match; simpl in *; rewrite ?Ha in *; simpl in *;
    rewrite ?List.filter_app; simpl; rewrite ?app_nil_r;
    try done; try congruence.
Qed.

Lemma nm_inactive_run st ops :
  NetworkManager.active st = false →
  NetworkManager.active (NetworkManager.run throws st ops) = false ∧
  worker_sends (NetworkManager.run throws st ops) = worker_sends st.
Proof.
  revert st. induction ops as [|o ops IH]; intros st Ha; [done|].
  simpl. destruct (nm_inactive_step st o Ha) as [Ha' Hs].
  destruct (IH _ Ha') as [? ?]. split; [done|congruence].
Qed.

Lemma nm_active_worker_run ww ops :
  let st := NetworkManager.run throws (NetworkManager.init ww) ops in
  (NetworkManager.active st = true → NetworkManager.worker st = true) ∧
  (NetworkManager.connected st = true → NetworkManager.socketIO st = true).
Proof.
  simpl.
  assert (∀ st,
    ((NetworkManager.active st = true → NetworkManager.worker st = true) ∧
     (NetworkManager.connected st = true → NetworkManager.socketIO st = true)) →
    ((NetworkManager.active (NetworkManager.run throws st ops) = true →
      NetworkManager.worker (NetworkManager.run throws st ops) = true) ∧
     (NetworkManager.connected (NetworkManager.run throws st ops) = true →
      NetworkManager.socketIO (NetworkManager.run throws st ops) = true)))
    as Hrun.
  { induction ops as [|o ops IH]; intros st Hst; [done|].
    simpl. apply IH. destruct Hst as [H1 H2].
    destruct o; simpl;
      unfold NetworkManager.sendUdpMessage, NetworkManager.sendTcpMessage,
        NetworkManager.worker_send, NetworkManager.onMessage,
        NetworkManager.disconnect, NetworkManager.terminate;
      repeat case_match; simpl in *; split; intros; simplify_eq;
      try done; intuition congruence. }
  apply Hrun. simpl. split; [done|]. intros. done.
Qed.

(** X19: [disconnect()] ends the network worker for good.  In every run
    that goes on after a [disconnect()], also through a new [connect()],
    no message is posted to the worker again, and [sendUdpMessage]
    changes nothing while it still returns [true] when the manager is
    connected. *)
Theorem network_worker_stays_dead_after_disconnect ww ops1 ops2 m :
  let st0 := NetworkManager.run throws (NetworkManager.init ww)
               (ops1 ++ [NetworkManager.Disconnect]) in
  let st := NetworkManager.run throws st0 ops2 in
  worker_sends st = worker_sends st0 ∧
  NetworkManager.sendUdpMessage m st = (st, NetworkManager.connected st).
Proof.
  intros st0 st.
  assert (NetworkManager.active st0 = false) as Ha0.
  { subst st0. unfold NetworkManager.run. rewrite fold_left_app. simpl.
    set (s := fold_left _ _ _).
    pose proof (nm_active_worker_run ww ops1) as [Hw _]. simpl in Hw.
    fold (NetworkManager.run throws (NetworkManager.init ww) ops1) in s.
    fold s in Hw.
    unfold NetworkManager.disconnect, NetworkManager.terminate.
    destruct (NetworkManager.worker s) eqn:E; simpl; [done|].
    destruct (NetworkManager.active s); [|done]. by specialize (Hw eq_refl). }
  destruct (nm_inactive_run st0 ops2 Ha0) as [Ha Hs]. fold st in Ha, Hs.
  split; [done|].
  unfold NetworkManager.sendUdpMessage, NetworkManager.worker_send.
  rewrite Ha. simpl. by destruct (NetworkManager.connected st).
Qed.

(** X20: [sendTcpMessage] never throws: in every run [socketIO] is set
    whenever [connected] is, and the call returns [connected]. *)
Theorem sendTcpMessage_returns_connected ww ops m :
  let st := NetworkManager.run throws (NetworkManager.init ww) ops in
  (NetworkManager.sendTcpMessage m st).2 = Some (NetworkManager.connected st) ∧
  NetworkManager.emitted (NetworkManager.sendTcpMessage m st).1
    = NetworkManager.emitted st
      ++ (if NetworkManager.connected st then [m] else []).
Proof.
  intros st. pose proof (nm_active_worker_run ww ops) as [_ Hc].
  simpl in Hc. fold st in Hc. unfold NetworkManager.sendTcpMessage.
  destruct (NetworkManager.connected st); simpl; [|by rewrite app_nil_r].
  rewrite Hc by done. unfold NetworkManager.worker_send.
  by destruct (_ && _).
Qed.

End NetworkManagerFacts.

(** ** Event listeners *)

Lemma listeners_NoDup ops :
  map_Forall (λ (_ : string) (set : list nat), NoDup set) (Listeners.run ops).
Proof.
  unfold Listeners.run.
  assert (∀ ls, map_Forall (λ (_ : string) (set : list nat), NoDup set) ls →
                map_Forall (λ (_ : string) (set : list nat), NoDup set)
                  (fold_left Listeners.step ops ls)) as Hrun.
  { induction ops as [|o ops IH]; intros ls Hls; [done|].
    simpl. apply IH. destruct o as [e c|e c|]; simpl.
    - unfold Listeners.on. apply map_Forall_insert_2; [|done].
      destruct (ls !! e) as [set|] eqn:E; simpl.
      + pose proof (Hls _ _ E) as Hnd. simpl in Hnd.
        destruct (decide (c ∈ set)); [done|].
        apply NoDup_app. split; [done|]. split; [|apply NoDup_singleton].
        intros x Hx Hx'. apply list_elem_of_singleton in Hx'. by subst.
      + apply NoDup_singleton.
    - unfold Listeners.off. destruct (ls !! e) as [set|] eqn:E; [|done].
      apply map_Forall_insert_2; [|done].
      apply NoDup_filter. exact (Hls _ _ E).
    - apply map_Forall_empty. }
  apply Hrun. apply map_Forall_empty.
Qed.

(** X21: listeners are a set.  After any sequence of [on], [off] and
    [listeners.clear()], [emitEvent] calls no callback twice, however
    often it was registered; a callback that was just registered is
    called, one that was just removed is not. *)
Theorem listeners_are_called_at_most_once ops event callback :
  NoDup (Listeners.emitEvent event (Listeners.run ops)) ∧
  callback ∈ Listeners.emitEvent event
               (Listeners.run (ops ++ [Listeners.On event callback])) ∧
  callback ∉ Listeners.emitEvent event
               (Listeners.run (ops ++ [Listeners.Off event callback])).
Proof.
  split; [|split].
  - unfold Listeners.emitEvent.
    destruct (Listeners.run ops !! event) as [set|] eqn:E; simpl;
      [|constructor].
    exact (listeners_NoDup ops _ _ E).
  - unfold Listeners.run. rewrite fold_left_app. simpl.
    unfold Listeners.emitEvent, Listeners.on. rewrite lookup_insert_eq. simpl.
    destruct (decide _); [done|]. apply elem_of_app. right.
    by apply list_elem_of_singleton.
  - unfold Listeners.run. rewrite fold_left_app. simpl.
    unfold Listeners.emitEvent, Listeners.off.
    destruct (fold_left Listeners.step ops ∅ !! event) as [set|] eqn:E.
    + rewrite lookup_insert_eq. simpl. intros H.
      by apply list_elem_of_filter in H as [H _].
    + rewrite E. simpl. apply not_elem_of_nil.
Qed.

(** ** [destroy] *)

Lemma cancelTransfer_status transferId st st' :
  FT.cancelTransfer transferId st = (st', None) →
  ∀ id, (FT.status <$> FT.transfers st' !! id)
        = if decide (id = transferId)
          then (λ _, cancelled) <$> FT.transfers st !! id
          else FT.status <$> FT.transfers st !! id.
Proof.
  intros Hc. unfold FT.cancelTransfer in Hc.
  destruct (FT.transfers st !! transferId) as [t|] eqn:Ht.
  2: { injection Hc as <-. intros id.
       destruct (decide _) as [->|]; [by rewrite Ht|done]. }
  assert (FT.transfers st'
          = <[transferId := FT.set_status cancelled t]> (FT.transfers st))
    as ->.
  { revert Hc. ft_cases; intros; simplify_eq; simpl;
      rewrite ?clearRetryTimeouts_transfers; done. }
  intros id. destruct (decide (id = transferId)) as [->|Hne].
  - by rewrite lookup_insert_eq, Ht.
  - by rewrite lookup_insert_ne.
Qed.

Lemma cancelAll_status order st st' :
  Lifecycle.cancelAll order st = (st', None) →
  ∀ id, (FT.status <$> FT.transfers st' !! id)
        = if decide (id ∈ order)
          then (λ _, cancelled) <$> FT.transfers st !! id
          else FT.status <$> FT.transfers st !! id.
Proof.
  revert st. induction order as [|id0 order IH]; intros st Hc id; simpl in Hc.
  - injection Hc as <-. rewrite decide_False by apply not_elem_of_nil. done.
  - destruct (FT.cancelTransfer id0 st) as [st1 [e|]] eqn:E; [done|].
    rewrite (IH _ Hc id).
    pose proof (cancelTransfer_status _ _ _ E id) as H1.
    destruct (decide (id ∈ order)) as [Hin|Hnin].
    + rewrite decide_True by (by right).
      destruct (FT.transfers st1 !! id) eqn:L1;
        destruct (FT.transfers st !! id) eqn:L0; simpl in *; try done;
        by destruct (decide _).
    + destruct (decide (id = id0)) as [->|Hne].
      * rewrite decide_True by left. done.
      * rewrite decide_False; [done|]. intros H.
        apply elem_of_cons in H as [?|?]; done.
Qed.

Lemma destroy_resets s order :
  (Lifecycle.destroy order s).2 = None →
  FT.initialized (Lifecycle.ft (Lifecycle.destroy order s).1) = false ∧
  FT.transferWorker (Lifecycle.ft (Lifecycle.destroy order s).1) = false ∧
  Lifecycle.netHandlers (Lifecycle.destroy order s).1 = Lifecycle.netHandlers s.
Proof.
  unfold Lifecycle.destroy.
  by destruct (Lifecycle.cancelAll order (Lifecycle.ft s)) as [st1 [e|]].
Qed.

(** X22: [destroy()] leaves every record ['cancelled'], also those that
    were ['complete'] before, drops the worker and resets [initialized];
    the network handler stays registered. *)
Theorem destroy_cancels_every_transfer s order :
  let s' := (Lifecycle.destroy order s).1 in
  (∀ id, is_Some (FT.transfers (Lifecycle.ft s) !! id) → id ∈ order) →
  (Lifecycle.destroy order s).2 = None →
  (∀ id t, FT.transfers (Lifecycle.ft s') !! id = Some t →
           FT.status t = cancelled) ∧
  dom (FT.transfers (Lifecycle.ft s')) = dom (FT.transfers (Lifecycle.ft s)) ∧
  FT.initialized (Lifecycle.ft s') = false ∧
  FT.transferWorker (Lifecycle.ft s') = false ∧
  Lifecycle.netHandlers s' = Lifecycle.netHandlers s.
Proof.
  intros s' Hall Hd. split; [|split; [|by apply destroy_resets]].
  all: subst s'; unfold Lifecycle.destroy in *;
    destruct (Lifecycle.cancelAll order (Lifecycle.ft s)) as [st1 [e|]] eqn:E;
    [done|]; simpl; pose proof (cancelAll_status _ _ _ E) as Hs.
  - intros id t Ht. specialize (Hs id). rewrite Ht in Hs. simpl in Hs.
    destruct (decide (id ∈ order)) as [Hin|Hnin].
    + destruct (FT.transfers (Lifecycle.ft s) !! id); simpl in Hs; congruence.
    + destruct (FT.transfers (Lifecycle.ft s) !! id) eqn:L; [|done].
      exfalso. apply Hnin, Hall. by rewrite L.
  - apply set_eq. intros id. rewrite !elem_of_dom. specialize (Hs id).
    destruct (FT.transfers st1 !! id), (FT.transfers (Lifecycle.ft s) !! id);
      simpl in Hs; try done; try (by destruct (decide _)).
Qed.

Lemma handleAll_metadata n md sid st :
  let e := EvIncomingFile (md_transferId md) (md_fileName md) (md_fileSize md)
             (md_fileType md) sid in
  (Lifecycle.handleAll n (InFileMetadata md sid) st).2 = None ∧
  FT.emitted (Lifecycle.handleAll n (InFileMetadata md sid) st).1
    = FT.emitted st ++ replicate n e.
Proof.
  simpl. revert st. induction n as [|n IH]; intros st.
  - simpl. by rewrite app_nil_r.
  - cbn [Lifecycle.handleAll FT.handleNetworkMessage].
    unfold FT.handleIncomingFileMetadata, FT.ok. cbn iota.
    match goal with
    | |- context [Lifecycle.handleAll n _ ?s] => destruct (IH s) as [H1 H2]
    end.
    split; [exact H1|]. rewrite H2. simpl. by rewrite <- app_assoc.
Qed.

(** X23: [destroy()] does not take the network handler back, and the
    next [init()] registers one more: after a [destroy()] and an [init()]
    a ['file-metadata'] message is handled once more often than before and
    emits that many ['incoming-file'] events; after
    [init(); destroy(); init()] that is twice for one message. *)
Theorem reinit_after_destroy_handles_messages_again
    s order windowWorker md sid :
  let s2 := Lifecycle.init windowWorker (Lifecycle.destroy order s).1 in
  let e := EvIncomingFile (md_transferId md) (md_fileName md) (md_fileSize md)
             (md_fileType md) sid in
  (Lifecycle.destroy order s).2 = None →
  Lifecycle.netHandlers s2 = S (Lifecycle.netHandlers s) ∧
  (Lifecycle.on_network (InFileMetadata md sid) s2).2 = None ∧
  FT.emitted (Lifecycle.ft
                (Lifecycle.on_network (InFileMetadata md sid) s2).1)
    = FT.emitted (Lifecycle.ft s2)
      ++ replicate (S (Lifecycle.netHandlers s)) e.
Proof.
  intros s2 e Hd.
  destruct (destroy_resets s order Hd) as (Hini & _ & Hn).
  assert (Lifecycle.netHandlers s2 = S (Lifecycle.netHandlers s)) as Hn2.
  { subst s2. unfold Lifecycle.init. rewrite Hini. simpl. by rewrite Hn. }
  split; [done|]. unfold Lifecycle.on_network. simpl. rewrite Hn2.
  destruct (handleAll_metadata (S (Lifecycle.netHandlers s)) md sid
              (Lifecycle.ft s2)) as [H1 H2]. by split.
Qed.

(** ** The properties above at concrete inputs *)

Lemma receiver_roundtrip_witness :
  let st1 := (FT.handleIncomingFileMetadata (Scenario.metadata_of 1 1) "alice"
                (FT.init Scenario.online)).1 in
  let st2 := deliver_chunks "t" (mkChunkMeta "a.txt" 1) Scenario.one_byte_file
               (indices 1) st1 in
  ∃ t rc,
    FT.transfers st2 !! "t" = Some t ∧
    receivedChunks_of t = Some rc ∧
    reassemble (FT.totalChunks t) rc = [Byte.x01] ∧
    (0 < 1 → FT.status t = complete).
Proof.
  apply (receiver_roundtrip (FT.init Scenario.online)
           (Scenario.metadata_of 1 1) "alice" (mkChunkMeta "a.txt" 1)
           Scenario.one_byte_file).
  reflexivity.
Defined.

Lemma no_timer_ever_resends_witness :
  let st := Sys.main (Sys.run (Sys.init Scenario.online) Example.send_steps) in
  Net.sent (FT.net (FT.step st (FT.TimerFires 1)))
    = Net.sent (FT.net st) ∧
  FT.timers (FT.step st (FT.TimerFires 1)) = delete 1%nat (FT.timers st).
Proof.
  apply (no_timer_ever_resends Scenario.online Example.send_steps 1).
  repeat constructor.
Defined.

Lemma cancel_clears_every_stored_retry_timer_witness :
  FT.timers
    (FT.step (FT.run (FT.init Scenario.online) Example.one_chunk_dispatched)
       (FT.CallCancelTransfer "t")) !! 1%nat = None.
Proof.
  apply (cancel_clears_every_stored_retry_timer Scenario.online
            Example.one_chunk_dispatched "t" Example.sending_record
            {[0 := FT.mkRetryInfo 0 1]} 0 (FT.mkRetryInfo 0 1)).
  - vm_compute. reflexivity.
  - reflexivity.
  - vm_compute. reflexivity.
  - vm_compute. reflexivity.
Defined.

Lemma ack_removes_the_retry_timer_witness :
  let st := FT.run (FT.init Scenario.online) Example.one_chunk_dispatched in
  let st' := (FT.handleChunkAcknowledgment "t" 0 "received" st).1 in
  FT.timers st' !! 1%nat = None ∧
  (FT.transfers st' !! "t" ≫= retries_of)
    = Some (delete 0 {[0 := FT.mkRetryInfo 0 1]}) ∧
  FT.fireTimer 1 st' = (st', None).
Proof.
  apply (ack_removes_the_retry_timer Scenario.online
            Example.one_chunk_dispatched "t" Example.sending_record
            {[0 := FT.mkRetryInfo 0 1]} 0 (FT.mkRetryInfo 0 1)).
  - vm_compute. reflexivity.
  - reflexivity.
  - vm_compute. reflexivity.
  - vm_compute. reflexivity.
Defined.

Lemma sender_completes_iff_all_acknowledged_witness :
  let st := FT.run (FT.init Scenario.online) Example.one_chunk_dispatched in
  let st' := (FT.handleChunkAcknowledgment "t" 0 "received" st).1 in
  (FT.status <$> FT.transfers st' !! "t") = Some complete
  ↔ (∀ i, 0 ≤ i < 1 → i = 0 ∨ i ∈ (∅ : gset Z)).
Proof.
  apply (sender_completes_iff_all_acknowledged
            (FT.run (FT.init Scenario.online) Example.one_chunk_dispatched)
            "t" 0 Example.sending_record "bob" {[0]} ∅
            {[0 := FT.mkRetryInfo 0 1]}).
  - vm_compute. reflexivity.
  - reflexivity.
  - vm_compute. reflexivity.
  - vm_compute. split; [discriminate|reflexivity].
  - intros i Hi. by apply not_elem_of_empty in Hi.
Defined.

Lemma cancelled_transfer_is_inert_witness :
  let st := FT.run (FT.init Scenario.online) Example.one_chunk_dispatched in
  let st' := (FT.cancelTransfer "t" st).1 in
  FT.sendFileChunk "t" 0 [Byte.x01] true "bob" st' = (st', None) ∧
  FT.retryChunk "t" 0 "bob" st' = (st', None) ∧
  FT.handleChunkAcknowledgment "t" 0 "received" st' = (st', None) ∧
  FT.handleIncomingFileChunk "t" 0 [Byte.x01] (mkChunkMeta "a.txt" 1) st'
    = (st', None).
Proof.
  apply (cancelled_transfer_is_inert
            (FT.run (FT.init Scenario.online) Example.one_chunk_dispatched)
            "t" Example.sending_record 0 [Byte.x01] true "bob" "received"
            (mkChunkMeta "a.txt" 1)).
  - vm_compute. reflexivity.
  - vm_compute. reflexivity.
Defined.

Lemma tcp_file_roundtrip_witness :
  (TcpTransfer.receive Some (λ _, true)
     [[Byte.x7b; Byte.x7d; Byte.x0a; Byte.x01]; [Byte.x0a]; [Byte.x02]]
     TcpTransfer.connected ≫= TcpTransfer.on_end (λ _, true))
  = Some (Example.json_text, [Byte.x01; Byte.x0a; Byte.x02]).
Proof.
  apply (tcp_file_roundtrip (λ info : Bytes, info) Some (λ _, true)
           Example.json_text [Byte.x01; Byte.x0a; Byte.x02]
           [Byte.x7b; Byte.x7d; Byte.x0a; Byte.x01] [[Byte.x0a]; [Byte.x02]]).
  - apply (bool_decide_unpack _). by vm_compute.
  - reflexivity.
  - reflexivity.
  - reflexivity.
  - simpl. lia.
Defined.



Lemma destroy_cancels_every_transfer_witness :
  let s' := (Lifecycle.destroy ["t"] Example.initialized_sender).1 in
  (∀ id t, FT.transfers (Lifecycle.ft s') !! id = Some t →
           FT.status t = cancelled) ∧
  dom (FT.transfers (Lifecycle.ft s'))
    = dom (FT.transfers (Lifecycle.ft Example.initialized_sender)) ∧
  FT.initialized (Lifecycle.ft s') = false ∧
  FT.transferWorker (Lifecycle.ft s') = false ∧
  Lifecycle.netHandlers s' = 1%nat.
Proof.
  apply (destroy_cancels_every_transfer Example.initialized_sender ["t"]).
  - assert (map_Forall (λ (k : string) (_ : FT.Transfer), k ∈ ["t"])
              (FT.transfers (Lifecycle.ft Example.initialized_sender))) as H
      by (apply (bool_decide_unpack _); by vm_compute).
    intros id [t Ht]. exact (H id t Ht).
  - vm_compute. reflexivity.
Defined.

Lemma reinit_after_destroy_handles_messages_again_witness :
  let s2 := Lifecycle.init true
              (Lifecycle.destroy ["t"] Example.initialized_sender).1 in
  let e := EvIncomingFile "t" "a.txt" 1 "text/plain" "alice" in
  Lifecycle.netHandlers s2 = 2%nat ∧
  (Lifecycle.on_network
     (InFileMetadata (Scenario.metadata_of 1 1) "alice") s2).2 = None ∧
  FT.emitted (Lifecycle.ft
                (Lifecycle.on_network
                   (InFileMetadata (Scenario.metadata_of 1 1) "alice") s2).1)
    = FT.emitted (Lifecycle.ft s2) ++ [e; e].
Proof.
  apply (reinit_after_destroy_handles_messages_again
           Example.initialized_sender ["t"] true (Scenario.metadata_of 1 1)
           "alice").
  vm_compute. reflexivity.
Defined.
